(** * Issue tracker: the request handlers of [app/routes/issues.py] over the
      [issues] table of [app/models.py]

    The handlers are embedded as pure functions over the table contents
    (explicit state passing: every handler that writes returns the new table
    together with its outcome).  The table is the list of its rows in rowid
    order, which is the order in which SQLite scans it for the queries of the
    handlers (none of them orders its result).  The database clock
    ([func.now()]) is an argument [now] of every handler that writes.  The
    integers of a request are Python's, unbounded; the ones a handler hands
    to a query are bound by the sqlite3 driver, which raises for an integer
    outside the signed 64-bit range. *)

From Stdlib Require Import ZArith List String Bool Lia Sorted DecimalString.
Import ListNotations.
Open Scope Z_scope.

(** ** app/models.py *)

Inductive IssueStatus := OPEN | IN_PROGRESS | RESOLVED | CLOSED.
Inductive IssuePriority := LOW | MEDIUM | HIGH | CRITICAL.

(** The members are [str] enums: each has the string value given in the
    class body, and [IssueStatus(v)] looks a member up by that value. *)
Definition IssueStatus_value (s : IssueStatus) : string :=
  match s with
  | OPEN => "open" | IN_PROGRESS => "in_progress"
  | RESOLVED => "resolved" | CLOSED => "closed"
  end.

Definition IssuePriority_value (p : IssuePriority) : string :=
  match p with
  | LOW => "low" | MEDIUM => "medium" | HIGH => "high" | CRITICAL => "critical"
  end.

Definition IssueStatus_of_value (v : string) : option IssueStatus :=
  find (fun s => String.eqb (IssueStatus_value s) v)
       [OPEN; IN_PROGRESS; RESOLVED; CLOSED].

Definition IssuePriority_of_value (v : string) : option IssuePriority :=
  find (fun p => String.eqb (IssuePriority_value p) v)
       [LOW; MEDIUM; HIGH; CRITICAL].

Definition IssueStatus_eqb (a b : IssueStatus) : bool :=
  match a, b with
  | OPEN, OPEN | IN_PROGRESS, IN_PROGRESS
  | RESOLVED, RESOLVED | CLOSED, CLOSED => true
  | _, _ => false
  end.

Definition IssuePriority_eqb (a b : IssuePriority) : bool :=
  match a, b with
  | LOW, LOW | MEDIUM, MEDIUM | HIGH, HIGH | CRITICAL, CRITICAL => true
  | _, _ => false
  end.

(** Python truthiness of the values the handlers test with [if x:]. *)
Definition truthy_str (s : string) : bool := negb (String.eqb s EmptyString).
Definition truthy_IssueStatus (s : IssueStatus) : bool :=
  truthy_str (IssueStatus_value s).
Definition truthy_IssuePriority (p : IssuePriority) : bool :=
  truthy_str (IssuePriority_value p).

(** A row of the [issues] table.  The columns declared [nullable=False]
    hold a value in every stored row; [description] and [assignee] may be
    NULL.  Timestamps are readings of the database clock. *)
Module Issue.
Record t := mk {
  id : Z;
  title : string;
  description : option string;
  status : IssueStatus;
  priority : IssuePriority;
  reporter : string;
  assignee : option string;
  created_at : Z;
  updated_at : Z
}.
End Issue.

(** [Column(String(200))], [Column(String(100))] *)
Definition title_max_length : nat := 200.
Definition reporter_max_length : nat := 100.
Definition assignee_max_length : nat := 100.

(** [default=IssueStatus.OPEN], [default=IssuePriority.MEDIUM] *)
Definition status_default : IssueStatus := OPEN.
Definition priority_default : IssuePriority := MEDIUM.

(** The attributes of an [Issue] instance held by a session, the six
    columns the payloads can name.  A Python attribute can be [None] whatever
    the column's nullability; the constraint is only checked by the table
    when the row is written. *)
Module Attrs.
Record t := mk {
  title : option string;
  description : option string;
  status : option IssueStatus;
  priority : option IssuePriority;
  reporter : option string;
  assignee : option string
}.

Definition empty : t := mk None None None None None None.
End Attrs.

(** One [(field, value)] item of a dumped payload, as consumed by
    the keyword-argument constructor [Issue] and by
    [setattr(db_issue, field, value)]. *)
Inductive Item :=
| Item_title (v : option string)
| Item_description (v : option string)
| Item_status (v : option IssueStatus)
| Item_priority (v : option IssuePriority)
| Item_reporter (v : option string)
| Item_assignee (v : option string).

Definition setattr (o : Attrs.t) (it : Item) : Attrs.t :=
  match it with
  | Item_title v =>
      Attrs.mk v (Attrs.description o) (Attrs.status o) (Attrs.priority o)
               (Attrs.reporter o) (Attrs.assignee o)
  | Item_description v =>
      Attrs.mk (Attrs.title o) v (Attrs.status o) (Attrs.priority o)
               (Attrs.reporter o) (Attrs.assignee o)
  | Item_status v =>
      Attrs.mk (Attrs.title o) (Attrs.description o) v (Attrs.priority o)
               (Attrs.reporter o) (Attrs.assignee o)
  | Item_priority v =>
      Attrs.mk (Attrs.title o) (Attrs.description o) (Attrs.status o) v
               (Attrs.reporter o) (Attrs.assignee o)
  | Item_reporter v =>
      Attrs.mk (Attrs.title o) (Attrs.description o) (Attrs.status o)
               (Attrs.priority o) v (Attrs.assignee o)
  | Item_assignee v =>
      Attrs.mk (Attrs.title o) (Attrs.description o) (Attrs.status o)
               (Attrs.priority o) (Attrs.reporter o) v
  end.

(** [for field, value in d.items(): setattr(db_issue, field, value)] *)
Definition setattrs (o : Attrs.t) (d : list Item) : Attrs.t :=
  fold_left setattr d o.

(** The attributes of an instance loaded from a row. *)
Definition loaded (r : Issue.t) : Attrs.t :=
  Attrs.mk (Some (Issue.title r)) (Issue.description r)
           (Some (Issue.status r)) (Some (Issue.priority r))
           (Some (Issue.reporter r)) (Issue.assignee r).

Definition option_eqb {A} (eqb : A -> A -> bool) (a b : option A) : bool :=
  match a, b with
  | Some x, Some y => eqb x y
  | None, None => true
  | _, _ => false
  end.

Definition Attrs_eqb (a b : Attrs.t) : bool :=
  option_eqb String.eqb (Attrs.title a) (Attrs.title b)
  && option_eqb String.eqb (Attrs.description a) (Attrs.description b)
  && option_eqb IssueStatus_eqb (Attrs.status a) (Attrs.status b)
  && option_eqb IssuePriority_eqb (Attrs.priority a) (Attrs.priority b)
  && option_eqb String.eqb (Attrs.reporter a) (Attrs.reporter b)
  && option_eqb String.eqb (Attrs.assignee a) (Attrs.assignee b).

(** ** Outcomes of a handler *)

Inductive result (A : Type) :=
| Success (a : A)
| HTTP_404_NOT_FOUND (issue_id : Z)   (* raise HTTPException(404, detail) *)
| HTTP_422_VALIDATION                 (* request rejected before the handler *)
| IntegrityError                      (* the table refused the write *)
| OverflowError.                      (* the driver could not bind an int *)
Arguments Success {A} a.
Arguments HTTP_404_NOT_FOUND {A} issue_id.
Arguments HTTP_422_VALIDATION {A}.
Arguments IntegrityError {A}.
Arguments OverflowError {A}.

(** ** The [issues] table (app/database.py: SQLite) *)

Definition Table := list Issue.t.

(** The largest rowid in use, if any. *)
Fixpoint max_rowid (db : Table) : option Z :=
  match db with
  | [] => None
  | r :: rest =>
      Some (match max_rowid rest with
            | None => Issue.id r
            | Some m => Z.max (Issue.id r) m
            end)
  end.

(** [id] is the table's INTEGER PRIMARY KEY, so it is the rowid.  The table
    is created by [Base.metadata.create_all] from the column as declared:
    no [sqlite_autoincrement] table argument is given, so the column is a
    plain rowid alias and an INSERT without id takes one more than the
    largest rowid in use, 1 on an empty table. *)
Definition next_rowid (db : Table) : Z :=
  match max_rowid db with
  | None => 1
  | Some m => m + 1
  end.

(** INSERT of a new instance at [db.commit()].  An attribute that is
    [None] is left out of the statement, so that a column with a [default]
    takes it; [title] and [reporter] have none and are NOT NULL.  Both
    timestamps take [server_default=func.now()]. *)
Definition insert (now : Z) (o : Attrs.t) (db : Table)
  : Table * result Issue.t :=
  match Attrs.title o, Attrs.reporter o with
  | Some t, Some r =>
      let row :=
        Issue.mk (next_rowid db) t (Attrs.description o)
                 (match Attrs.status o with
                  | Some s => s | None => status_default end)
                 (match Attrs.priority o with
                  | Some p => p | None => priority_default end)
                 r (Attrs.assignee o) now now in
      (db ++ [row], Success row)
  | _, _ => (db, IntegrityError)
  end.

(** The sqlite3 driver binds a Python [int] parameter as a signed 64-bit
    INTEGER; for an [int] outside that range the call that executes the
    statement raises [OverflowError]. *)
Definition INT64_MIN : Z := -9223372036854775808.
Definition INT64_MAX : Z := 9223372036854775807.
Definition bindable (z : Z) : bool := (INT64_MIN <=? z) && (z <=? INT64_MAX).

(** [SELECT ... FROM issues WHERE issues.id = ? LIMIT 1] with the id bound:
    the first row of that id, if any. *)
Definition select_first (issue_id : Z) (db : Table) : option Issue.t :=
  find (fun r => Issue.id r =? issue_id) db.

(** What [.first()] does: it returns a row, returns [None], or raises. *)
Inductive Fetched :=
| Row (r : Issue.t)
| NoRow
| Unbindable.

(** [db.query(Issue).filter(Issue.id == issue_id).first()] *)
Definition query_first (issue_id : Z) (db : Table) : Fetched :=
  if bindable issue_id then
    match select_first issue_id db with
    | Some r => Row r
    | None => NoRow
    end
  else Unbindable.

(** [UPDATE issues SET ... WHERE issues.id = ?]: the row of that id takes
    the new column values, every other row is kept. *)
Definition rewrite_row (row' : Issue.t) (db : Table) : Table :=
  map (fun x => if Issue.id x =? Issue.id row' then row' else x) db.

(** UPDATE of a loaded instance at [db.commit()].  The unit of work
    compares every attribute that was set with the value that was loaded and
    emits an UPDATE only when one of them differs; [onupdate=func.now()]
    belongs to that statement, so [updated_at] is reset exactly when it is
    emitted.  A NOT NULL column set to [None] makes the statement fail and
    the transaction is rolled back. *)
Definition update (now : Z) (row : Issue.t) (o : Attrs.t) (db : Table)
  : Table * result Issue.t :=
  if Attrs_eqb (loaded row) o then (db, Success row)
  else
    match Attrs.title o, Attrs.status o, Attrs.priority o, Attrs.reporter o with
    | Some t, Some s, Some p, Some r =>
        let row' :=
          Issue.mk (Issue.id row) t (Attrs.description o) s p r
                   (Attrs.assignee o) (Issue.created_at row) now in
        (rewrite_row row' db, Success row')
    | _, _, _, _ => (db, IntegrityError)
    end.

(** [db.delete(db_issue); db.commit()] *)
Definition delete (row : Issue.t) (db : Table) : Table :=
  filter (fun x => negb (Issue.id x =? Issue.id row)) db.

(** ** app/schemas.py *)

(** Modelled from the spec: app/schemas.py ([IssueCreate]) is not among the
    sources.  A validated CreateRequest: every field of the entity except
    [id] and the timestamps; [title] and [reporter] required; [status] and
    [priority] hold the entity model's defaults when the body omitted them. *)
Module IssueCreate.
Record t := mk {
  title : string;
  description : option string;
  status : IssueStatus;
  priority : IssuePriority;
  reporter : string;
  assignee : option string
}.
End IssueCreate.

(** Modelled from the spec: app/schemas.py ([IssueUpdate]) is not among the
    sources.  A validated UpdateRequest: every field optional, and a field
    that the body omitted ([None] here) is distinguished from a field the
    body set, possibly to null ([Some v], with [v = None] for null). *)
Module IssueUpdate.
Record t := mk {
  title : option (option string);
  description : option (option string);
  status : option (option IssueStatus);
  priority : option (option IssuePriority);
  reporter : option (option string);
  assignee : option (option string)
}.
End IssueUpdate.

(** [issue.model_dump()]: every field of the payload. *)
Definition model_dump (p : IssueCreate.t) : list Item :=
  [ Item_title (Some (IssueCreate.title p));
    Item_description (IssueCreate.description p);
    Item_status (Some (IssueCreate.status p));
    Item_priority (Some (IssueCreate.priority p));
    Item_reporter (Some (IssueCreate.reporter p));
    Item_assignee (IssueCreate.assignee p) ].

Definition dump_field {A} (mk : option A -> Item) (f : option (option A))
  : list Item :=
  match f with
  | Some v => [mk v]
  | None => []
  end.

(** [issue_update.model_dump(exclude_unset=True)]: the fields the body set. *)
Definition model_dump_exclude_unset (p : IssueUpdate.t) : list Item :=
  dump_field Item_title (IssueUpdate.title p)
  ++ dump_field Item_description (IssueUpdate.description p)
  ++ dump_field Item_status (IssueUpdate.status p)
  ++ dump_field Item_priority (IssueUpdate.priority p)
  ++ dump_field Item_reporter (IssueUpdate.reporter p)
  ++ dump_field Item_assignee (IssueUpdate.assignee p).

(** The answer of List, with the three fields [list_issues] passes to its
    constructor. *)
Module IssueListResponse.
Record t := mk {
  total : Z;
  count : Z;
  issues : list Issue.t
}.
End IssueListResponse.

(** The JSON body of a POST as it arrives: a field is absent or carries a
    string. *)
Module CreateBody.
Record t := mk {
  title : option string;
  description : option string;
  status : option string;
  priority : option string;
  reporter : option string;
  assignee : option string
}.
End CreateBody.

Definition within (n : nat) (s : string) : bool :=
  (String.length s <=? n)%nat.

(** Modelled from the spec: app/schemas.py (the validation of [IssueCreate])
    is not among the sources.  A body is rejected when [title] or [reporter]
    is missing or longer than its limit, when [title] is empty, when
    [assignee] is longer than its limit, or when [status] or [priority] is
    not the value of a member of its enumeration; an omitted [status] or
    [priority] takes the entity model's default. *)
Definition validate_IssueCreate (b : CreateBody.t) : option IssueCreate.t :=
  match CreateBody.title b, CreateBody.reporter b with
  | Some t, Some r =>
      if truthy_str t && within title_max_length t
         && within reporter_max_length r
         && match CreateBody.assignee b with
            | Some a => within assignee_max_length a
            | None => true
            end
      then
        match (match CreateBody.status b with
               | Some v => IssueStatus_of_value v
               | None => Some status_default
               end),
              (match CreateBody.priority b with
               | Some v => IssuePriority_of_value v
               | None => Some priority_default
               end) with
        | Some s, Some p =>
            Some (IssueCreate.mk t (CreateBody.description b) s p r
                                 (CreateBody.assignee b))
        | _, _ => None
        end
      else None
  | _, _ => None
  end.

(** ** app/routes/issues.py *)

Definition create_issue (now : Z) (issue : IssueCreate.t) (db : Table)
  : Table * result Issue.t :=
  let db_issue := setattrs Attrs.empty (model_dump issue) in
  insert now db_issue db.

(** [if x:] on an optional query parameter. *)
Definition provided {A} (truthy : A -> bool) (x : option A) : option A :=
  match x with
  | Some v => if truthy v then Some v else None
  | None => None
  end.

(** [query.filter(column == v)] when the parameter passed the [if]. *)
Definition filter_if {A} (x : option A) (test : A -> Issue.t -> bool)
    (query : list Issue.t) : list Issue.t :=
  match x with
  | Some v => filter (test v) query
  | None => query
  end.

Definition status_is (s : IssueStatus) (r : Issue.t) : bool :=
  IssueStatus_eqb (Issue.status r) s.
Definition priority_is (p : IssuePriority) (r : Issue.t) : bool :=
  IssuePriority_eqb (Issue.priority r) p.
(** A NULL assignee equals no string. *)
Definition assignee_is (a : string) (r : Issue.t) : bool :=
  match Issue.assignee r with
  | Some x => String.eqb x a
  | None => false
  end.

(** [skip: int = Query(0, ge=0)], [limit: int = Query(100, ge=1, le=100)] *)
Definition valid_page (skip limit : Z) : bool :=
  (0 <=? skip) && (1 <=? limit) && (limit <=? 100).

Definition list_issues (status : option IssueStatus)
    (priority : option IssuePriority) (assignee : option string)
    (skip limit : Z) (db : Table) : result IssueListResponse.t :=
  if valid_page skip limit then
    let query := db in
    let query := filter_if (provided truthy_IssueStatus status) status_is query in
    let query := filter_if (provided truthy_IssuePriority priority) priority_is query in
    let query := filter_if (provided truthy_str assignee) assignee_is query in
    let total := Z.of_nat (List.length query) in
    (* [offset(skip).limit(limit).all()] binds both numbers *)
    if bindable skip && bindable limit then
      let issues := firstn (Z.to_nat limit) (skipn (Z.to_nat skip) query) in
      Success (IssueListResponse.mk total (Z.of_nat (List.length issues)) issues)
    else OverflowError
  else HTTP_422_VALIDATION.

Definition get_issue (issue_id : Z) (db : Table) : result Issue.t :=
  match query_first issue_id db with
  | Row issue => Success issue
  | NoRow => HTTP_404_NOT_FOUND issue_id
  | Unbindable => OverflowError
  end.

Definition update_issue (now : Z) (issue_id : Z) (issue_update : IssueCreate.t)
    (db : Table) : Table * result Issue.t :=
  match query_first issue_id db with
  | Unbindable => (db, OverflowError)
  | NoRow => (db, HTTP_404_NOT_FOUND issue_id)
  | Row db_issue =>
      update now db_issue (setattrs (loaded db_issue) (model_dump issue_update)) db
  end.

Definition partial_update_issue (now : Z) (issue_id : Z)
    (issue_update : IssueUpdate.t) (db : Table) : Table * result Issue.t :=
  match query_first issue_id db with
  | Unbindable => (db, OverflowError)
  | NoRow => (db, HTTP_404_NOT_FOUND issue_id)
  | Row db_issue =>
      let update_data := model_dump_exclude_unset issue_update in
      update now db_issue (setattrs (loaded db_issue) update_data) db
  end.

(** [str(issue_id)] inside an f-string. *)
Definition str_int (z : Z) : string := NilZero.string_of_int (Z.to_int z).

(** [detail=f"Issue with id {issue_id} not found"] *)
Definition not_found_detail (issue_id : Z) : string :=
  ("Issue with id " ++ str_int issue_id ++ " not found")%string.

Definition delete_issue (issue_id : Z) (db : Table) : Table * result string :=
  match query_first issue_id db with
  | Unbindable => (db, OverflowError)
  | NoRow => (db, HTTP_404_NOT_FOUND issue_id)
  | Row db_issue =>
      (delete db_issue db,
       Success ("Issue " ++ str_int issue_id ++ " deleted successfully")%string)
  end.

(** POST /issues/ from the body: FastAPI validates the body against
    [IssueCreate] and calls the handler only with a validated payload. *)
Definition post_issues (now : Z) (body : CreateBody.t) (db : Table)
  : Table * result Issue.t :=
  match validate_IssueCreate body with
  | Some issue => create_issue now issue db
  | None => (db, HTTP_422_VALIDATION)
  end.

(** ** Sequences of calls *)

Inductive Call :=
| Create (issue : IssueCreate.t)
| List (status : option IssueStatus) (priority : option IssuePriority)
       (assignee : option string) (skip limit : Z)
| Get (issue_id : Z)
| Update (issue_id : Z) (issue_update : IssueCreate.t)
| PartialUpdate (issue_id : Z) (issue_update : IssueUpdate.t)
| Delete (issue_id : Z).

Inductive Response :=
| IssueResponse (r : result Issue.t)
| ListResponse (r : result IssueListResponse.t)
| MessageResponse (r : result string).

(** One request, served at database time [now]. *)
Definition exec (now : Z) (c : Call) (db : Table) : Table * Response :=
  match c with
  | Create issue =>
      let (db', r) := create_issue now issue db in (db', IssueResponse r)
  | List st pr asg skip limit =>
      (db, ListResponse (list_issues st pr asg skip limit db))
  | Get issue_id => (db, IssueResponse (get_issue issue_id db))
  | Update issue_id p =>
      let (db', r) := update_issue now issue_id p db in (db', IssueResponse r)
  | PartialUpdate issue_id p =>
      let (db', r) := partial_update_issue now issue_id p db in
      (db', IssueResponse r)
  | Delete issue_id =>
      let (db', r) := delete_issue issue_id db in (db', MessageResponse r)
  end.

(** The requests of a sequence, each with the time it is served at, run
    one after the other; the responses are collected in order. *)
Fixpoint run (calls : list (Z * Call)) (db : Table) : Table * list Response :=
  match calls with
  | [] => (db, [])
  | (now, c) :: rest =>
      let (db1, r) := exec now c db in
      let (db2, rs) := run rest db1 in
      (db2, r :: rs)
  end.

(** The ids that the Create calls of a sequence returned, in order. *)
Fixpoint created_ids (calls : list (Z * Call)) (rs : list Response) : list Z :=
  match calls, rs with
  | (_, Create _) :: calls', IssueResponse (Success i) :: rs' =>
      Issue.id i :: created_ids calls' rs'
  | _ :: calls', _ :: rs' => created_ids calls' rs'
  | _, _ => []
  end.

Definition is_Delete (c : Call) : bool :=
  match c with Delete _ => true | _ => false end.

(** ** Vocabulary of the properties *)

Definition merge {A} (f : option (option A)) (cur : option A) : option A :=
  match f with
  | Some v => v
  | None => cur
  end.

Definition is_null {A} (f : option (option A)) : bool :=
  match f with
  | Some None => true
  | _ => false
  end.

(** The payload sets a NOT NULL column to null. *)
Definition nulls_required (p : IssueUpdate.t) : bool :=
  is_null (IssueUpdate.title p) || is_null (IssueUpdate.status p)
  || is_null (IssueUpdate.priority p) || is_null (IssueUpdate.reporter p).

(** The call answers with an issue whose [updated_at] is the time of the
    call. *)
Definition refreshes_updated_at (now issue_id : Z) (p : IssueUpdate.t)
    (db : Table) : Prop :=
  exists db' new,
    partial_update_issue now issue_id p db = (db', Success new)
    /\ Issue.updated_at new = now.

Definition test_if {A} (x : option A) (test : A -> Issue.t -> bool)
    (r : Issue.t) : bool :=
  match x with
  | Some v => test v r
  | None => true
  end.

(** A row passes every filter the handler applies. *)
Definition matches (status : option IssueStatus)
    (priority : option IssuePriority) (assignee : option string)
    (r : Issue.t) : bool :=
  test_if (provided truthy_IssueStatus status) status_is r
  && test_if (provided truthy_IssuePriority priority) priority_is r
  && test_if (provided truthy_str assignee) assignee_is r.

(** The page that [offset(skip).limit(limit)] cuts out of a result. *)
Definition page (skip limit : Z) (query : list Issue.t) : list Issue.t :=
  firstn (Z.to_nat limit) (skipn (Z.to_nat skip) query).

(** The exact-match predicates of the filters as the spec words them: a
    filter that is given must be equalled, whatever its value. *)
Definition satisfies (st : option IssueStatus) (pr : option IssuePriority)
    (asg : option string) (r : Issue.t) : Prop :=
  (forall s, st = Some s -> Issue.status r = s)
  /\ (forall p, pr = Some p -> Issue.priority r = p)
  /\ (forall a, asg = Some a -> Issue.assignee r = Some a).

(** The same, the assignee filter counting only when it is not the empty
    string. *)
Definition satisfies_applied (st : option IssueStatus)
    (pr : option IssuePriority) (asg : option string) (r : Issue.t) : Prop :=
  (forall s, st = Some s -> Issue.status r = s)
  /\ (forall p, pr = Some p -> Issue.priority r = p)
  /\ (forall a, asg = Some a -> a <> EmptyString -> Issue.assignee r = Some a).

(** What the contract of the validation layer rejects. *)
Definition invalid_body (b : CreateBody.t) : Prop :=
  CreateBody.title b = None
  \/ CreateBody.reporter b = None
  \/ CreateBody.title b = Some EmptyString
  \/ (exists t, CreateBody.title b = Some t
                /\ (title_max_length < String.length t)%nat)
  \/ (exists r, CreateBody.reporter b = Some r
                /\ (reporter_max_length < String.length r)%nat)
  \/ (exists v, CreateBody.status b = Some v
                /\ forall s, IssueStatus_value s <> v)
  \/ (exists v, CreateBody.priority b = Some v
                /\ forall p, IssuePriority_value p <> v).

(** The rows of a table are in ascending order of id. *)
Definition ascending (db : Table) : Prop :=
  StronglySorted Z.lt (map Issue.id db).

Definition no_Delete (calls : list (Z * Call)) : bool :=
  forallb (fun c => negb (is_Delete (snd c))) calls.

(** ** Sample data *)

Definition sample_issue : Issue.t :=
  Issue.mk 1 "Login fails" (Some "500 on submit"%string) OPEN HIGH
           "ann" (Some "bob"%string) 10 10.

Definition sample_create : IssueCreate.t :=
  IssueCreate.mk "Login fails" (Some "500 on submit"%string) OPEN HIGH
                 "ann" (Some "bob"%string).

(** The PATCH body [{"status": "resolved"}]. *)
Definition patch_status_resolved : IssueUpdate.t :=
  IssueUpdate.mk None None (Some (Some RESOLVED)) None None None.

(** The PATCH body [{}]. *)
Definition patch_nothing : IssueUpdate.t :=
  IssueUpdate.mk None None None None None None.

(** The PATCH body [{"status": "open"}]. *)
Definition patch_status_open : IssueUpdate.t :=
  IssueUpdate.mk None None (Some (Some OPEN)) None None None.

(** Five issues, ids 1 to 5, all open and of high priority. *)
Definition five_issues : Table :=
  map (fun i => Issue.mk i "t" None OPEN HIGH "ann" None 10 10) [1; 2; 3; 4; 5].

(** A table with one issue of each kind the filter examples need. *)
Definition mixed_issues : Table :=
  [ Issue.mk 1 "a" None OPEN HIGH "ann" (Some "bob"%string) 10 10;
    Issue.mk 2 "b" None OPEN LOW "ann" None 11 11;
    Issue.mk 3 "c" None CLOSED HIGH "ann" (Some EmptyString) 12 12 ].


(** ** Vocabulary of the further properties *)

(** The issues of a List answer; none when the request was rejected. *)
Definition issues_of (r : result IssueListResponse.t) : list Issue.t :=
  match r with
  | Success resp => IssueListResponse.issues resp
  | _ => []
  end.

(** The PATCH payload that provides every field of a PUT payload. *)
Definition patch_of (p : IssueCreate.t) : IssueUpdate.t :=
  IssueUpdate.mk (Some (Some (IssueCreate.title p)))
                 (Some (IssueCreate.description p))
                 (Some (Some (IssueCreate.status p)))
                 (Some (Some (IssueCreate.priority p)))
                 (Some (Some (IssueCreate.reporter p)))
                 (Some (IssueCreate.assignee p)).

Definition is_Success {A} (r : result A) : bool :=
  match r with
  | Success _ => true
  | _ => false
  end.

Definition succeeded (r : Response) : bool :=
  match r with
  | IssueResponse x => is_Success x
  | ListResponse x => is_Success x
  | MessageResponse x => is_Success x
  end.

(** The id of the one row a call may write: the next rowid for Create, the
    id in the path for the calls that name one, none for the reads. *)
Definition target (c : Call) (db : Table) : option Z :=
  match c with
  | Create _ => Some (next_rowid db)
  | Update i _ | PartialUpdate i _ | Delete i => Some i
  | List _ _ _ _ _ | Get _ => None
  end.

(** The database clock never goes back: the calls of a sequence are served
    at times that do not decrease, none before [t]. *)
Fixpoint clock_from (t : Z) (calls : list (Z * Call)) : bool :=
  match calls with
  | [] => true
  | (now, _) :: rest => (t <=? now) && clock_from now rest
  end.

(** The time of the last call of a sequence that starts at [t]. *)
Fixpoint last_time (t : Z) (calls : list (Z * Call)) : Z :=
  match calls with
  | [] => t
  | (now, _) :: rest => last_time now rest
  end.

Definition is_Create (c : Call) : bool :=
  match c with Create _ => true | _ => false end.

(** How many Create calls a sequence holds. *)
Definition count_creates (calls : list (Z * Call)) : Z :=
  Z.of_nat (List.length (filter (fun c => is_Create (snd c)) calls)).

(** The answers of the first [k] pages of a listing, each of [limit]
    issues, one after the other. *)
Definition first_pages (st : option IssueStatus) (pr : option IssuePriority)
    (asg : option string) (limit : Z) (k : nat) (db : Table) : list Issue.t :=
  List.concat (map (fun n => issues_of (list_issues st pr asg
                                     (Z.of_nat n * limit) limit db))
              (seq 0 k)).

(** The body that [update_issue] and [partial_update_issue] share: look
    the issue up, assign the dumped items, commit. *)
Definition write_items (now issue_id : Z) (items : list Item) (db : Table)
  : Table * result Issue.t :=
  match query_first issue_id db with
  | Unbindable => (db, OverflowError)
  | NoRow => (db, HTTP_404_NOT_FOUND issue_id)
  | Row db_issue => update now db_issue (setattrs (loaded db_issue) items) db
  end.

(** Every row was created no later than it was last updated, and last
    updated no later than [t]. *)
Definition timely (t : Z) (db : Table) : Prop :=
  forall r, In r db ->
    Issue.created_at r <= Issue.updated_at r /\ Issue.updated_at r <= t.

(** Every stored id lies between 1 and [n]. *)
Definition ids_within (n : Z) (db : Table) : Prop :=
  forall r, In r db -> 1 <= Issue.id r <= n.




(** What a handler answers for an id that no stored issue has. *)
Definition absent_answer {A} (issue_id : Z) : result A :=
  if bindable issue_id then HTTP_404_NOT_FOUND issue_id else OverflowError.

(** * Proofs *)

(** ** Equality tests *)

Lemma IssueStatus_eqb_eq (a b : IssueStatus) :
  IssueStatus_eqb a b = true <-> a = b.
Proof. destruct a, b; simpl; split; congruence. Qed.

Lemma IssuePriority_eqb_eq (a b : IssuePriority) :
  IssuePriority_eqb a b = true <-> a = b.
Proof. destruct a, b; simpl; split; congruence. Qed.

Lemma option_eqb_eq {A} (eqb : A -> A -> bool)
    (eqb_eq : forall x y, eqb x y = true <-> x = y) (a b : option A) :
  option_eqb eqb a b = true <-> a = b.
Proof.
  destruct a as [x|], b as [y|]; simpl; try (split; congruence).
  rewrite eqb_eq. split; congruence.
Qed.

Lemma Attrs_eqb_eq (a b : Attrs.t) : Attrs_eqb a b = true <-> a = b.
Proof.
  unfold Attrs_eqb. rewrite !andb_true_iff.
  rewrite !(option_eqb_eq String.eqb String.eqb_eq).
  rewrite (option_eqb_eq _ IssueStatus_eqb_eq).
  rewrite (option_eqb_eq _ IssuePriority_eqb_eq).
  destruct a, b; simpl. split.
  - intros [[[[[-> ->] ->] ->] ->] ->]. reflexivity.
  - intros E. injection E as -> -> -> -> -> ->. repeat split.
Qed.

Lemma Attrs_eqb_neq (a b : Attrs.t) : Attrs_eqb a b = false <-> a <> b.
Proof.
  rewrite <- Attrs_eqb_eq. destruct (Attrs_eqb a b); split; congruence.
Qed.

(** ** The table: lookups after a write *)

Lemma select_first_id (i : Z) (db : Table) (r : Issue.t) :
  select_first i db = Some r -> Issue.id r = i.
Proof.
  unfold select_first. intros H. apply find_some in H.
  destruct H as [_ H]. apply Z.eqb_eq in H. exact H.
Qed.

Lemma select_first_In (i : Z) (db : Table) (r : Issue.t) :
  select_first i db = Some r -> In r db.
Proof. unfold select_first. intros H. apply find_some in H. tauto. Qed.

Lemma select_first_None (i : Z) (db : Table) :
  select_first i db = None <-> (forall r, In r db -> Issue.id r <> i).
Proof.
  unfold select_first. split.
  - intros H r Hr E. apply (find_none _ _ H) in Hr.
    apply Z.eqb_neq in Hr. contradiction.
  - intros H. induction db as [|x db IH]; simpl; [reflexivity|].
    destruct (Issue.id x =? i) eqn:E.
    + apply Z.eqb_eq in E. exfalso. apply (H x); simpl; auto.
    + apply IH. intros r Hr. apply H. simpl; auto.
Qed.

Lemma select_first_rewrite_same (row' old : Issue.t) (db : Table) :
  select_first (Issue.id row') db = Some old ->
  select_first (Issue.id row') (rewrite_row row' db) = Some row'.
Proof.
  unfold select_first, rewrite_row.
  induction db as [|x db IH]; simpl; [discriminate|].
  destruct (Issue.id x =? Issue.id row') eqn:E.
  - intros _. rewrite Z.eqb_refl. reflexivity.
  - rewrite E. exact IH.
Qed.

Lemma select_first_rewrite_other (row' : Issue.t) (j : Z) (db : Table) :
  j <> Issue.id row' ->
  select_first j (rewrite_row row' db) = select_first j db.
Proof.
  intros Hj. unfold select_first, rewrite_row.
  induction db as [|x db IH]; simpl; [reflexivity|].
  destruct (Issue.id x =? Issue.id row') eqn:E.
  - apply Z.eqb_eq in E.
    assert ((Issue.id row' =? j) = false) as -> by (apply Z.eqb_neq; congruence).
    assert ((Issue.id x =? j) = false) as -> by (apply Z.eqb_neq; congruence).
    exact IH.
  - destruct (Issue.id x =? j); [reflexivity | exact IH].
Qed.

(** The same facts for the query as the handlers issue it. *)

Lemma query_first_select (i : Z) (db : Table) :
  bindable i = true ->
  query_first i db
  = match select_first i db with Some r => Row r | None => NoRow end.
Proof. intros H. unfold query_first. rewrite H. reflexivity. Qed.

Lemma query_first_Row (i : Z) (db : Table) (r : Issue.t) :
  query_first i db = Row r <-> bindable i = true /\ select_first i db = Some r.
Proof.
  unfold query_first. destruct (bindable i).
  - destruct (select_first i db) as [x|]; split.
    + intros [= ->]. split; reflexivity.
    + intros [_ [= ->]]. reflexivity.
    + discriminate.
    + intros [_ H]. discriminate H.
  - split; [discriminate | intros [H _]; discriminate H].
Qed.

Lemma query_first_NoRow (i : Z) (db : Table) :
  query_first i db = NoRow
  <-> bindable i = true /\ forall r, In r db -> Issue.id r <> i.
Proof.
  rewrite <- select_first_None. unfold query_first. destruct (bindable i).
  - destruct (select_first i db); split.
    + discriminate.
    + intros [_ H]. discriminate H.
    + intros _. split; reflexivity.
    + reflexivity.
  - split; [discriminate | intros [H _]; discriminate H].
Qed.

Lemma query_first_Unbindable (i : Z) (db : Table) :
  query_first i db = Unbindable <-> bindable i = false.
Proof.
  unfold query_first. destruct (bindable i).
  - destruct (select_first i db); split; discriminate.
  - split; reflexivity.
Qed.

Lemma query_first_same (j : Z) (db db' : Table) :
  select_first j db' = select_first j db ->
  query_first j db' = query_first j db.
Proof. intros E. unfold query_first. rewrite E. reflexivity. Qed.

Lemma query_first_id (i : Z) (db : Table) (r : Issue.t) :
  query_first i db = Row r -> Issue.id r = i.
Proof. intros H. apply query_first_Row in H. apply (select_first_id i db), H. Qed.

Lemma query_first_In (i : Z) (db : Table) (r : Issue.t) :
  query_first i db = Row r -> In r db.
Proof. intros H. apply query_first_Row in H. apply (select_first_In i db), H. Qed.

Lemma query_first_rewrite_same (row' old : Issue.t) (db : Table) :
  query_first (Issue.id row') db = Row old ->
  query_first (Issue.id row') (rewrite_row row' db) = Row row'.
Proof.
  intros H. apply query_first_Row in H. destruct H as [Hb H].
  apply query_first_Row. split; [exact Hb|].
  apply (select_first_rewrite_same row' old), H.
Qed.

Lemma query_first_rewrite_other (row' : Issue.t) (j : Z) (db : Table) :
  j <> Issue.id row' ->
  query_first j (rewrite_row row' db) = query_first j db.
Proof.
  intros Hj. apply query_first_same, select_first_rewrite_other, Hj.
Qed.

(** ** What the two dumps assign *)

Lemma setattrs_patch (o : Attrs.t) (p : IssueUpdate.t) :
  setattrs o (model_dump_exclude_unset p) =
  Attrs.mk (merge (IssueUpdate.title p) (Attrs.title o))
           (merge (IssueUpdate.description p) (Attrs.description o))
           (merge (IssueUpdate.status p) (Attrs.status o))
           (merge (IssueUpdate.priority p) (Attrs.priority o))
           (merge (IssueUpdate.reporter p) (Attrs.reporter o))
           (merge (IssueUpdate.assignee p) (Attrs.assignee o)).
Proof.
  destruct o, p as [[?|] [?|] [?|] [?|] [?|] [?|]]; reflexivity.
Qed.

Lemma setattrs_full (o : Attrs.t) (p : IssueCreate.t) :
  setattrs o (model_dump p) =
  Attrs.mk (Some (IssueCreate.title p)) (IssueCreate.description p)
           (Some (IssueCreate.status p)) (Some (IssueCreate.priority p))
           (Some (IssueCreate.reporter p)) (IssueCreate.assignee p).
Proof. destruct o, p; reflexivity. Qed.

(** Names the row that the UPDATE in the goal writes. *)
Ltac name_written_row r :=
  match goal with |- context [rewrite_row ?x _] => set (r := x) end.

(** The outcome of [update], case by case. *)
Lemma update_cases (now : Z) (row : Issue.t) (o : Attrs.t) (db : Table) :
  (o = loaded row /\ update now row o db = (db, Success row))
  \/ (o <> loaded row /\
      exists t s p r,
        Attrs.title o = Some t /\ Attrs.status o = Some s /\
        Attrs.priority o = Some p /\ Attrs.reporter o = Some r /\
        let row' := Issue.mk (Issue.id row) t (Attrs.description o) s p r
                             (Attrs.assignee o) (Issue.created_at row) now in
        update now row o db = (rewrite_row row' db, Success row'))
  \/ (o <> loaded row /\
      (Attrs.title o = None \/ Attrs.status o = None \/
       Attrs.priority o = None \/ Attrs.reporter o = None) /\
      update now row o db = (db, IntegrityError)).
Proof.
  unfold update. destruct (Attrs_eqb (loaded row) o) eqn:E.
  - apply Attrs_eqb_eq in E. left. split; [symmetry; exact E | reflexivity].
  - apply Attrs_eqb_neq in E. right.
    assert (o <> loaded row) as E' by congruence.
    destruct (Attrs.title o) as [t|]; [|right; tauto].
    destruct (Attrs.status o) as [s|]; [|right; tauto].
    destruct (Attrs.priority o) as [p|]; [|right; tauto].
    destruct (Attrs.reporter o) as [r|]; [|right; tauto].
    left. split; [exact E'|]. exists t, s, p, r. repeat split.
Qed.

(** ** PATCH /issues/{issue_id} *)

(** C1.  For every stored issue and every PartialUpdate payload, the issue
    stored under the id after the call differs from the one before only in
    fields the payload provides (and [updated_at]): [id], [created_at] and
    every field the payload omits keep their values, and no other row is
    touched.  With the body [{"status": "resolved"}] the call succeeds, the
    status is [resolved], and title, description, priority, reporter,
    assignee and created_at are as before. *)
Theorem partial_update_only_provided_fields
    (now issue_id : Z) (p : IssueUpdate.t) (db : Table) (old : Issue.t)
    (Hold : query_first issue_id db = Row old) :
  let out := partial_update_issue now issue_id p db in
  exists new,
    query_first issue_id (fst out) = Row new
    /\ Issue.id new = Issue.id old
    /\ Issue.created_at new = Issue.created_at old
    /\ (IssueUpdate.title p = None -> Issue.title new = Issue.title old)
    /\ (IssueUpdate.description p = None ->
        Issue.description new = Issue.description old)
    /\ (IssueUpdate.status p = None -> Issue.status new = Issue.status old)
    /\ (IssueUpdate.priority p = None ->
        Issue.priority new = Issue.priority old)
    /\ (IssueUpdate.reporter p = None ->
        Issue.reporter new = Issue.reporter old)
    /\ (IssueUpdate.assignee p = None ->
        Issue.assignee new = Issue.assignee old)
    /\ (forall j, j <> issue_id ->
        query_first j (fst out) = query_first j db)
    /\ (p = patch_status_resolved ->
        snd out = Success new
        /\ Issue.status new = RESOLVED
        /\ Issue.title new = Issue.title old
        /\ Issue.description new = Issue.description old
        /\ Issue.priority new = Issue.priority old
        /\ Issue.reporter new = Issue.reporter old
        /\ Issue.assignee new = Issue.assignee old
        /\ Issue.created_at new = Issue.created_at old).
Proof.
  pose proof (query_first_id _ _ _ Hold) as Hid.
  unfold partial_update_issue. rewrite Hold. cbv zeta.
  rewrite setattrs_patch.
  match goal with |- context [update now old ?a db] => set (o := a) end.
  destruct (update_cases now old o db)
    as [[E U] | [[E (t & s & pr & r & Ht & Hs & Hp & Hr & U)] | [E [N U]]]].
  - (* no column differs: nothing is written *)
    rewrite U. simpl. exists old. repeat split; auto.
    subst p. unfold o in E. simpl in E. injection E as E. congruence.
  - (* the UPDATE is emitted *)
    cbv zeta in U. rewrite U. simpl.
    name_written_row row'.
    assert (Issue.id row' = issue_id) as Hid' by exact Hid.
    exists row'. unfold o in Ht, Hs, Hp, Hr. simpl in Ht, Hs, Hp, Hr.
    split.
    { rewrite <- Hid'. apply (query_first_rewrite_same row' old).
      rewrite Hid'. exact Hold. }
    split; [reflexivity|]. split; [reflexivity|].
    split. { intros Z0. rewrite Z0 in Ht. simpl in Ht. simpl. congruence. }
    split. { intros Z0. simpl. unfold o. simpl. rewrite Z0. reflexivity. }
    split. { intros Z0. rewrite Z0 in Hs. simpl in Hs. simpl. congruence. }
    split. { intros Z0. rewrite Z0 in Hp. simpl in Hp. simpl. congruence. }
    split. { intros Z0. rewrite Z0 in Hr. simpl in Hr. simpl. congruence. }
    split. { intros Z0. simpl. unfold o. simpl. rewrite Z0. reflexivity. }
    split.
    { intros j Hj. apply query_first_rewrite_other. congruence. }
    intros ->. simpl in Ht, Hs, Hp, Hr. unfold row', o. simpl.
    repeat split; congruence.
  - (* a NOT NULL column was set to null: the write is refused *)
    rewrite U. simpl. exists old. repeat split; auto.
    all: subst p; unfold o in N; simpl in N;
      destruct N as [N | [N | [N | N]]]; discriminate.
Qed.

Lemma partial_update_only_provided_fields_witness :
  query_first 1 [sample_issue] = Row sample_issue
  /\ exists new,
       snd (partial_update_issue 20 1 patch_status_resolved [sample_issue])
       = Success new
       /\ Issue.status new = RESOLVED
       /\ Issue.title new = Issue.title sample_issue.
Proof.
  split; [reflexivity|].
  destruct (partial_update_only_provided_fields
              20 1 patch_status_resolved [sample_issue] sample_issue eq_refl)
    as (new & _ & _ & _ & _ & _ & _ & _ & _ & _ & _ & H).
  destruct (H eq_refl) as (H1 & H2 & H3 & _).
  exists new. auto.
Defined.

(** C2, as stated, fails: on the table holding [sample_issue] (status
    [open], last updated at time 10) a PATCH served at time 40 with no field,
    and one whose only field is the status the issue already has, both
    succeed and answer with [updated_at] still 10. *)
Lemma partial_update_touch_counterexample :
  ~ refreshes_updated_at 40 1 patch_nothing [sample_issue]
  /\ ~ refreshes_updated_at 40 1 patch_status_open [sample_issue]
  /\ partial_update_issue 40 1 patch_nothing [sample_issue]
     = ([sample_issue], Success sample_issue)
  /\ partial_update_issue 40 1 patch_status_open [sample_issue]
     = ([sample_issue], Success sample_issue)
  /\ Issue.updated_at sample_issue = 10.
Proof.
  repeat split.
  - intros (db' & new & H & T). vm_compute in H. injection H as _ <-.
    discriminate T.
  - intros (db' & new & H & T). vm_compute in H. injection H as _ <-.
    discriminate T.
Qed.

(** C2, amended.  On an existing issue, a PartialUpdate whose applied values
    all equal the stored ones, in particular one that provides no field,
    succeeds, answers with the stored issue and writes nothing, so
    [updated_at] is not refreshed; a PartialUpdate with at least one applied
    value that differs from the stored one (none of them a null for a
    required column) succeeds and sets [updated_at] to the time of the
    call. *)
Theorem partial_update_refreshes_on_change
    (now issue_id : Z) (p : IssueUpdate.t) (db : Table) (old : Issue.t)
    (Hold : query_first issue_id db = Row old) :
  let o := setattrs (loaded old) (model_dump_exclude_unset p) in
  (model_dump_exclude_unset p = [] -> o = loaded old)
  /\ (o = loaded old ->
      partial_update_issue now issue_id p db = (db, Success old))
  /\ (o <> loaded old -> nulls_required p = false ->
      refreshes_updated_at now issue_id p db
      /\ exists new,
           query_first issue_id (fst (partial_update_issue now issue_id p db))
           = Row new
           /\ Issue.updated_at new = now).
Proof.
  pose proof (query_first_id _ _ _ Hold) as Hid.
  intros o. split; [|split].
  - intros E. unfold o. rewrite E. reflexivity.
  - intros E. unfold partial_update_issue. rewrite Hold. cbv zeta.
    fold o. rewrite E. unfold update.
    assert (Attrs_eqb (loaded old) (loaded old) = true) as ->
        by (apply Attrs_eqb_eq; reflexivity).
    reflexivity.
  - intros E Hn. unfold refreshes_updated_at, partial_update_issue.
    rewrite Hold. cbv zeta. fold o.
    destruct (update_cases now old o db)
      as [[E' _] | [[_ (t & s & pr & r & Ht & Hs & Hp & Hr & U)] | [_ [N _]]]].
    + contradiction.
    + cbv zeta in U. rewrite U. simpl.
      name_written_row row'.
      split.
      * exists (rewrite_row row' db), row'. split; reflexivity.
      * exists row'. split; [|reflexivity].
        replace issue_id with (Issue.id row') by exact Hid.
        apply (query_first_rewrite_same row' old).
        change (Issue.id row') with (Issue.id old). rewrite Hid. exact Hold.
    + exfalso. unfold o in N. rewrite setattrs_patch in N. simpl in N.
      unfold nulls_required in Hn. rewrite !orb_false_iff in Hn.
      destruct Hn as [[[H1 H2] H3] H4].
      destruct p as [[[?|]|] ? [[?|]|] [[?|]|] [[?|]|] ?]; simpl in *;
        try discriminate;
        destruct N as [N | [N | [N | N]]]; discriminate.
Qed.

Lemma partial_update_refreshes_on_change_witness :
  query_first 1 [sample_issue] = Row sample_issue
  /\ partial_update_issue 40 1 patch_nothing [sample_issue]
     = ([sample_issue], Success sample_issue)
  /\ refreshes_updated_at 40 1 patch_status_resolved [sample_issue].
Proof.
  split; [reflexivity|]. split.
  - pose proof (partial_update_refreshes_on_change
                  40 1 patch_nothing [sample_issue] sample_issue eq_refl)
      as (E & U & _).
    apply U, E. reflexivity.
  - pose proof (partial_update_refreshes_on_change
                  40 1 patch_status_resolved [sample_issue] sample_issue
                  eq_refl) as (_ & _ & R).
    apply R; [discriminate | reflexivity].
Defined.

(** ** PUT /issues/{issue_id} *)

(** C3.  The code falls short of the claim at an id that the driver
    cannot bind.  On the table that holds [sample_issue] alone, the id 2^63
    does not resolve, yet a FullUpdate of it does not answer NotFound: the
    lookup raises [OverflowError] and the request fails, the table left as
    it was. *)
Theorem update_issue_unbindable_id :
  (forall r, In r [sample_issue] -> Issue.id r <> 9223372036854775808)
  /\ update_issue 20 9223372036854775808 sample_create [sample_issue]
     = ([sample_issue], OverflowError)
  /\ snd (update_issue 20 9223372036854775808 sample_create [sample_issue])
     <> HTTP_404_NOT_FOUND 9223372036854775808.
Proof.
  split; [|split].
  - intros r [<- | []]. discriminate.
  - reflexivity.
  - discriminate.
Qed.

(** ** GET /issues/ *)

Section ListLemmas.
Context {A : Type}.
Implicit Types (f g : A -> bool) (l : list A).

Lemma filter_twice f g l :
  filter g (filter f l) = filter (fun x => f x && g x) l.
Proof.
  induction l as [|x l IH]; simpl; [reflexivity|].
  destruct (f x); simpl; [destruct (g x)|]; rewrite IH; reflexivity.
Qed.

Lemma filter_all l : filter (fun _ => true) l = l.
Proof. induction l as [|x l IH]; simpl; congruence. Qed.

Lemma In_firstn (n : nat) l (x : A) : In x (firstn n l) -> In x l.
Proof.
  revert l. induction n as [|n IH]; intros [|y l]; simpl; try tauto.
  intros [H|H]; [left; exact H | right; apply IH; exact H].
Qed.

Lemma In_skipn (n : nat) l (x : A) : In x (skipn n l) -> In x l.
Proof.
  revert l. induction n as [|n IH]; intros [|y l]; simpl; try tauto.
  intros H. right. apply IH. exact H.
Qed.
End ListLemmas.

Lemma filter_if_test {A} (x : option A) (test : A -> Issue.t -> bool)
    (query : list Issue.t) :
  filter_if x test query = filter (test_if x test) query.
Proof.
  destruct x as [v|]; simpl; [reflexivity|]. symmetry. apply filter_all.
Qed.

(** The three conditional [filter] calls select the rows that pass
    [matches]. *)
Lemma valid_page_bounds (skip limit : Z) :
  valid_page skip limit = true <-> 0 <= skip /\ 1 <= limit <= 100.
Proof. unfold valid_page. rewrite !andb_true_iff, !Z.leb_le. tauto. Qed.

Lemma bindable_bounds (z : Z) :
  bindable z = true <-> INT64_MIN <= z <= INT64_MAX.
Proof. unfold bindable. rewrite andb_true_iff, !Z.leb_le. tauto. Qed.

Lemma valid_page_limit_bindable (skip limit : Z) :
  valid_page skip limit = true -> bindable limit = true.
Proof.
  intros H. apply valid_page_bounds in H. apply bindable_bounds.
  unfold INT64_MIN, INT64_MAX. lia.
Qed.

Lemma list_issues_unfold (st : option IssueStatus) (pr : option IssuePriority)
    (asg : option string) (skip limit : Z) (db : Table) :
  valid_page skip limit = true -> bindable skip = true ->
  list_issues st pr asg skip limit db =
  let query := filter (matches st pr asg) db in
  Success (IssueListResponse.mk
             (Z.of_nat (List.length query))
             (Z.of_nat (List.length (page skip limit query)))
             (page skip limit query)).
Proof.
  intros Hv Hb. unfold list_issues.
  rewrite Hv, Hb, (valid_page_limit_bindable skip limit Hv). cbv zeta.
  cbn [andb].
  rewrite !filter_if_test, !filter_twice.
  rewrite (filter_ext _ (matches st pr asg)); [reflexivity|].
  intros r. unfold matches. apply andb_assoc.
Qed.

Lemma length_page (skip limit : Z) (query : list Issue.t) :
  0 <= skip ->
  Z.of_nat (List.length (page skip limit query)) =
  Z.max 0 (Z.min limit (Z.of_nat (List.length query) - skip)).
Proof.
  intros Hs. unfold page. rewrite length_firstn, length_skipn. lia.
Qed.

Lemma matches_satisfies_applied (st : option IssueStatus)
    (pr : option IssuePriority) (asg : option string) (r : Issue.t) :
  matches st pr asg r = true <-> satisfies_applied st pr asg r.
Proof.
  unfold matches, satisfies_applied. rewrite !andb_true_iff.
  assert (test_if (provided truthy_IssueStatus st) status_is r = true
          <-> forall s, st = Some s -> Issue.status r = s) as ->.
  { destruct st as [s|]; simpl.
    - replace (truthy_IssueStatus s) with true by (destruct s; reflexivity).
      simpl. unfold status_is. rewrite IssueStatus_eqb_eq.
      split; [intros H ? [= <-]; exact H | auto].
    - split; [discriminate | reflexivity]. }
  assert (test_if (provided truthy_IssuePriority pr) priority_is r = true
          <-> forall p, pr = Some p -> Issue.priority r = p) as ->.
  { destruct pr as [p|]; simpl.
    - replace (truthy_IssuePriority p) with true by (destruct p; reflexivity).
      simpl. unfold priority_is. rewrite IssuePriority_eqb_eq.
      split; [intros H ? [= <-]; exact H | auto].
    - split; [discriminate | reflexivity]. }
  assert (test_if (provided truthy_str asg) assignee_is r = true
          <-> forall a, asg = Some a -> a <> EmptyString ->
                        Issue.assignee r = Some a) as ->.
  { destruct asg as [a|]; simpl.
    - unfold truthy_str. destruct (String.eqb a EmptyString) eqn:E; simpl.
      + apply String.eqb_eq in E. split; [|reflexivity].
        intros _ ? [= <-] N. contradiction.
      + apply String.eqb_neq in E. unfold assignee_is.
        destruct (Issue.assignee r) as [x|].
        * rewrite String.eqb_eq.
          split; [intros -> ? [= <-] _; reflexivity|].
          intros H. specialize (H a eq_refl E). congruence.
        * split; [discriminate|]. intros H.
          specialize (H a eq_refl E). discriminate.
    - split; [discriminate | reflexivity]. }
  tauto.
Qed.

Lemma filter_decides {P : Issue.t -> Prop} (f g : Issue.t -> bool)
    (db : Table) :
  (forall r, f r = true <-> P r) -> (forall r, g r = true <-> P r) ->
  filter f db = filter g db.
Proof.
  intros Hf Hg. apply filter_ext. intros r.
  destruct (f r) eqn:F, (g r) eqn:G; try reflexivity.
  - apply Hf, Hg in F. congruence.
  - apply Hg, Hf in G. congruence.
Qed.

(** C4, as stated, fails twice.  With the assignee filter given as the
    empty string, List on [mixed_issues] reports [total = 3] although one
    record only matches that filter; and with [skip = 2^63], which the
    validation of [skip] accepts, List returns nothing: the driver cannot
    bind the offset and the request fails. *)
Lemma list_issues_total_counterexample :
  (exists resp,
     list_issues None None (Some EmptyString) 0 100 mixed_issues = Success resp
     /\ IssueListResponse.total resp = 3
     /\ forall f : Issue.t -> bool,
          (forall r, f r = true <-> satisfies None None (Some EmptyString) r) ->
          Z.of_nat (List.length (filter f mixed_issues)) = 1)
  /\ valid_page 9223372036854775808 100 = true
  /\ list_issues None None None 9223372036854775808 100 mixed_issues
     = OverflowError.
Proof.
  split; [|split; reflexivity].
  eexists. split; [reflexivity|]. split; [reflexivity|].
  intros f Hf. unfold mixed_issues. cbn [filter].
  assert (forall r, Issue.assignee r <> Some EmptyString -> f r = false) as No.
  { intros r Hr. destruct (f r) eqn:F; [|reflexivity].
    apply Hf in F. destruct F as (_ & _ & F). elim Hr. apply F. reflexivity. }
  rewrite (No (Issue.mk 1 "a" None OPEN HIGH "ann" (Some "bob"%string) 10 10))
    by discriminate.
  rewrite (No (Issue.mk 2 "b" None OPEN LOW "ann" None 11 11)) by discriminate.
  assert (f (Issue.mk 3 "c" None CLOSED HIGH "ann" (Some EmptyString) 12 12)
          = true) as ->.
  { apply Hf. repeat split; intros x [= <-]. reflexivity. }
  reflexivity.
Qed.

(** C4, amended.  For every table, filters and pagination parameters that
    the validation accepts, with [skip] in the range the driver can bind,
    List succeeds with [total] the number of records that match the filters,
    an assignee filter given as the empty string counting as not given,
    [issues] the page cut out of those records by [skip] and [limit], and
    [count] the length of that page, which is [min limit (total - skip)] or 0
    past the end; so with 5 matching issues and [limit=2], [skip=0] gives
    [count=2] and [skip=4] gives [count=1]. *)
Theorem list_issues_total_count_page
    (st : option IssueStatus) (pr : option IssuePriority)
    (asg : option string) (skip limit : Z) (db : Table)
    (Hv : valid_page skip limit = true)
    (Hb : bindable skip = true) :
  exists resp,
    list_issues st pr asg skip limit db = Success resp
    /\ (forall f : Issue.t -> bool,
          (forall r, f r = true <-> satisfies_applied st pr asg r) ->
          IssueListResponse.total resp = Z.of_nat (List.length (filter f db))
          /\ IssueListResponse.issues resp = page skip limit (filter f db))
    /\ IssueListResponse.count resp
       = Z.of_nat (List.length (IssueListResponse.issues resp))
    /\ IssueListResponse.count resp
       = Z.max 0 (Z.min limit (IssueListResponse.total resp - skip))
    /\ (IssueListResponse.total resp = 5 -> limit = 2 ->
        (skip = 0 -> IssueListResponse.count resp = 2)
        /\ (skip = 4 -> IssueListResponse.count resp = 1)).
Proof.
  rewrite (list_issues_unfold st pr asg skip limit db Hv Hb). cbv zeta.
  apply valid_page_bounds in Hv. destruct Hv as [Hs Hl].
  eexists. split; [reflexivity|]. simpl.
  pose proof (length_page skip limit (filter (matches st pr asg) db) Hs) as L.
  split.
  { intros f Hf.
    rewrite (filter_decides f (matches st pr asg) db Hf
               (matches_satisfies_applied st pr asg)).
    split; reflexivity. }
  repeat split; try exact L; intros; lia.
Qed.

(** Six issues, five of them open. *)
Lemma list_issues_total_count_page_witness :
  valid_page 4 2 = true
  /\ bindable 4 = true
  /\ exists resp,
       list_issues (Some OPEN) None (Some EmptyString) 4 2
         (five_issues
          ++ [Issue.mk 6 "u" None CLOSED LOW "ann" (Some "bob"%string) 10 10])
       = Success resp
       /\ IssueListResponse.total resp = 5
       /\ IssueListResponse.count resp = 1.
Proof.
  split; [reflexivity|]. split; [reflexivity|].
  destruct (list_issues_total_count_page (Some OPEN) None (Some EmptyString) 4 2
              (five_issues
               ++ [Issue.mk 6 "u" None CLOSED LOW "ann" (Some "bob"%string)
                            10 10])
              eq_refl eq_refl)
    as (resp & E & T & _ & _ & P).
  exists resp. split; [exact E|].
  assert (IssueListResponse.total resp = 5) as T5.
  { destruct (T (matches (Some OPEN) None (Some EmptyString))
                (matches_satisfies_applied _ _ _)) as [T1 _].
    rewrite T1. reflexivity. }
  split; [exact T5|].
  apply (P T5 eq_refl). reflexivity.
Defined.

(** C9, as stated, fails: with the assignee filter given as the empty
    string, List returns [sample_issue], whose assignee is ["bob"] and so
    does not equal the filter. *)
Lemma list_issues_empty_assignee_counterexample :
  exists resp,
    list_issues None None (Some EmptyString) 0 100 [sample_issue] = Success resp
    /\ In sample_issue (IssueListResponse.issues resp)
    /\ ~ satisfies None None (Some EmptyString) sample_issue.
Proof.
  eexists. split; [reflexivity|]. split; [left; reflexivity|].
  intros (_ & _ & H). specialize (H _ eq_refl). discriminate H.
Qed.

(** C9, amended.  For every combination of filters, List selects exactly
    the rows that equal every given status and priority filter and every
    given assignee filter other than the empty string, combined with AND:
    the page is cut out of those rows, every returned issue is one of them,
    and when the page covers the whole result the returned issues are
    exactly them.  The pagination parameters are any that the validation
    accepts and the driver can bind. *)
Theorem list_issues_filters_conjunction
    (st : option IssueStatus) (pr : option IssuePriority)
    (asg : option string) (skip limit : Z) (db : Table)
    (Hv : valid_page skip limit = true)
    (Hb : bindable skip = true) :
  exists resp,
    list_issues st pr asg skip limit db = Success resp
    /\ IssueListResponse.issues resp
       = page skip limit (filter (matches st pr asg) db)
    /\ (forall r, matches st pr asg r = true <-> satisfies_applied st pr asg r)
    /\ (forall r, In r (IssueListResponse.issues resp) ->
                  In r db /\ satisfies_applied st pr asg r)
    /\ (skip = 0 -> IssueListResponse.total resp <= limit ->
        forall r, In r (IssueListResponse.issues resp) <->
                  In r db /\ satisfies_applied st pr asg r).
Proof.
  rewrite (list_issues_unfold st pr asg skip limit db Hv Hb). cbv zeta.
  eexists. split; [reflexivity|]. simpl.
  split; [reflexivity|].
  split; [intros r; apply matches_satisfies_applied|].
  split.
  - intros r Hr. unfold page in Hr.
    apply In_firstn, In_skipn, filter_In in Hr.
    rewrite <- matches_satisfies_applied. exact Hr.
  - intros -> Hl r. unfold page. simpl.
    rewrite firstn_all2 by lia.
    rewrite filter_In, matches_satisfies_applied. reflexivity.
Qed.

Lemma list_issues_filters_conjunction_witness :
  valid_page 0 100 = true
  /\ bindable 0 = true
  /\ exists resp,
       list_issues (Some OPEN) (Some HIGH) None 0 100 mixed_issues
       = Success resp
       /\ forall r, In r (IssueListResponse.issues resp) ->
                    Issue.status r = OPEN /\ Issue.priority r = HIGH.
Proof.
  split; [reflexivity|]. split; [reflexivity|].
  destruct (list_issues_filters_conjunction
              (Some OPEN) (Some HIGH) None 0 100 mixed_issues eq_refl eq_refl)
    as (resp & E & _ & _ & H & _).
  exists resp. split; [exact E|].
  intros r Hr. destruct (H r Hr) as (_ & Hs & Hp & _).
  split; [apply Hs | apply Hp]; reflexivity.
Defined.


(** ** Unknown ids *)

(** C7.  The code falls short of the claim at an id that the driver
    cannot bind.  No issue of the table that holds [sample_issue] alone has
    the id 2^63, yet none of Get, FullUpdate, PartialUpdate and Delete
    answers NotFound for it: the lookup raises [OverflowError] in each and
    the request fails, the table left as it was. *)
Theorem unknown_id_unbindable :
  (forall r, In r [sample_issue] -> Issue.id r <> 9223372036854775808)
  /\ get_issue 9223372036854775808 [sample_issue] = OverflowError
  /\ update_issue 20 9223372036854775808 sample_create [sample_issue]
     = ([sample_issue], OverflowError)
  /\ partial_update_issue 20 9223372036854775808 patch_status_resolved
       [sample_issue]
     = ([sample_issue], OverflowError)
  /\ delete_issue 9223372036854775808 [sample_issue]
     = ([sample_issue], OverflowError)
  /\ get_issue 9223372036854775808 [sample_issue]
     <> HTTP_404_NOT_FOUND 9223372036854775808.
Proof.
  split; [intros r [<- | []]; discriminate|].
  repeat split. discriminate.
Qed.

(** ** POST /issues/ *)

Lemma IssueStatus_of_value_None (v : string) :
  (forall s, IssueStatus_value s <> v) -> IssueStatus_of_value v = None.
Proof.
  intros H. unfold IssueStatus_of_value. cbn [find].
  rewrite !(proj2 (String.eqb_neq _ _)) by apply H. reflexivity.
Qed.

Lemma IssuePriority_of_value_None (v : string) :
  (forall p, IssuePriority_value p <> v) -> IssuePriority_of_value v = None.
Proof.
  intros H. unfold IssuePriority_of_value. cbn [find].
  rewrite !(proj2 (String.eqb_neq _ _)) by apply H. reflexivity.
Qed.

Lemma validate_invalid_body (b : CreateBody.t) :
  invalid_body b -> validate_IssueCreate b = None.
Proof.
  unfold validate_IssueCreate, within.
  intros [H | [H | [H | [(t & H & L) | [(r & H & L) | [(v & H & L) | (v & H & L)]]]]]];
    rewrite H.
  - reflexivity.
  - destruct (CreateBody.title b); reflexivity.
  - destruct (CreateBody.reporter b); reflexivity.
  - destruct (CreateBody.reporter b); [|reflexivity].
    apply Nat.leb_gt in L. rewrite L, andb_false_r. reflexivity.
  - destruct (CreateBody.title b); [|reflexivity].
    apply Nat.leb_gt in L. rewrite L, andb_false_r. reflexivity.
  - rewrite (IssueStatus_of_value_None v L).
    destruct (CreateBody.title b), (CreateBody.reporter b); try reflexivity.
    match goal with |- (if ?c then _ else _) = _ => destruct c end;
      reflexivity.
  - rewrite (IssuePriority_of_value_None v L).
    destruct (CreateBody.title b), (CreateBody.reporter b); try reflexivity.
    match goal with |- (if ?c then _ else _) = _ => destruct c end;
      [|reflexivity].
    match goal with |- match ?c with _ => _ end = _ => destruct c end;
      reflexivity.
Qed.

(** C6.  A Create body whose title or reporter is missing or longer than
    200 and 100 characters, whose title is empty, or whose status or
    priority is not a value of its enumeration is answered with a
    validation error; the handler is not called, the table is as it was, and
    so is every List answer, its count included. *)
Theorem post_issues_rejects_invalid
    (now : Z) (body : CreateBody.t) (db : Table)
    (Hbad : invalid_body body) :
  validate_IssueCreate body = None
  /\ post_issues now body db = (db, HTTP_422_VALIDATION)
  /\ forall st pr asg skip limit,
       list_issues st pr asg skip limit (fst (post_issues now body db))
       = list_issues st pr asg skip limit db.
Proof.
  pose proof (validate_invalid_body body Hbad) as V.
  unfold post_issues. rewrite V. repeat split.
Qed.

Lemma post_issues_rejects_invalid_witness :
  invalid_body (CreateBody.mk (Some EmptyString) None None None
                              (Some "ann"%string) None)
  /\ post_issues 20 (CreateBody.mk (Some EmptyString) None None None
                                   (Some "ann"%string) None) [sample_issue]
     = ([sample_issue], HTTP_422_VALIDATION).
Proof.
  assert (invalid_body (CreateBody.mk (Some EmptyString) None None None
                                      (Some "ann"%string) None)) as H
      by (right; right; left; reflexivity).
  split; [exact H|].
  apply (post_issues_rejects_invalid 20 _ [sample_issue] H).
Defined.

Lemma insert_ok (now : Z) (o : Attrs.t) (db : Table) (t r : string) :
  Attrs.title o = Some t -> Attrs.reporter o = Some r ->
  exists row,
    insert now o db = (db ++ [row], Success row)
    /\ Issue.id row = next_rowid db
    /\ Issue.title row = t
    /\ Issue.reporter row = r
    /\ Issue.status row
       = match Attrs.status o with Some s => s | None => status_default end
    /\ Issue.priority row
       = match Attrs.priority o with Some p => p | None => priority_default end
    /\ Issue.created_at row = now
    /\ Issue.updated_at row = now.
Proof.
  intros Ht Hr. unfold insert. rewrite Ht, Hr.
  eexists. split; [reflexivity|]. repeat split.
Qed.

Lemma create_issue_ok (now : Z) (p : IssueCreate.t) (db : Table) :
  exists row,
    create_issue now p db = (db ++ [row], Success row)
    /\ Issue.id row = next_rowid db
    /\ Issue.status row = IssueCreate.status p
    /\ Issue.priority row = IssueCreate.priority p.
Proof.
  unfold create_issue. cbv zeta. rewrite setattrs_full.
  destruct (insert_ok now
              (Attrs.mk (Some (IssueCreate.title p)) (IssueCreate.description p)
                        (Some (IssueCreate.status p))
                        (Some (IssueCreate.priority p))
                        (Some (IssueCreate.reporter p))
                        (IssueCreate.assignee p))
              db _ _ eq_refl eq_refl)
    as (row & E & Hid & _ & _ & Hs & Hp & _).
  exists row. auto.
Qed.

(** C8.  For every Create body that passes validation, the issue is
    created, stored and returned, with status [open] when the body omits
    the status and priority [medium] when it omits the priority.  The
    table's column defaults give the same values to an instance that
    reaches the INSERT without a status or a priority. *)
Theorem create_applies_defaults
    (now : Z) (body : CreateBody.t) (issue : IssueCreate.t) (db : Table)
    (Hvalid : validate_IssueCreate body = Some issue) :
  (exists row,
     post_issues now body db = (db ++ [row], Success row)
     /\ (CreateBody.status body = None -> Issue.status row = OPEN)
     /\ (CreateBody.priority body = None -> Issue.priority row = MEDIUM))
  /\ forall o t r,
       Attrs.title o = Some t -> Attrs.reporter o = Some r ->
       exists row,
         insert now o db = (db ++ [row], Success row)
         /\ (Attrs.status o = None -> Issue.status row = OPEN)
         /\ (Attrs.priority o = None -> Issue.priority row = MEDIUM).
Proof.
  split.
  - unfold post_issues. rewrite Hvalid.
    destruct (create_issue_ok now issue db) as (row & E & _ & Hs & Hp).
    exists row. split; [exact E|].
    unfold validate_IssueCreate in Hvalid.
    destruct (CreateBody.title body) as [t|]; [|discriminate].
    destruct (CreateBody.reporter body) as [r|]; [|discriminate].
    match type of Hvalid with (if ?c then _ else _) = _ => destruct c end;
      [|discriminate].
    split; intros Z0; rewrite Z0 in Hvalid.
    + destruct (match CreateBody.priority body with
                | Some v => IssuePriority_of_value v
                | None => Some priority_default end); [|discriminate].
      injection Hvalid as <-. rewrite Hs. reflexivity.
    + destruct (match CreateBody.status body with
                | Some v => IssueStatus_of_value v
                | None => Some status_default end); [|discriminate].
      injection Hvalid as <-. rewrite Hp. reflexivity.
  - intros o t r Ht Hr.
    destruct (insert_ok now o db t r Ht Hr)
      as (row & E & _ & _ & _ & Hs & Hp & _).
    exists row. split; [exact E|].
    split; intros Z0; [rewrite Hs | rewrite Hp]; rewrite Z0; reflexivity.
Qed.

Lemma create_applies_defaults_witness :
  validate_IssueCreate
    (CreateBody.mk (Some "t"%string) None None None (Some "ann"%string) None)
  = Some (IssueCreate.mk "t" None OPEN MEDIUM "ann" None)
  /\ exists row,
       post_issues 20 (CreateBody.mk (Some "t"%string) None None None
                                     (Some "ann"%string) None) []
       = ([] ++ [row], Success row)
       /\ Issue.status row = OPEN /\ Issue.priority row = MEDIUM.
Proof.
  split; [reflexivity|].
  destruct (create_applies_defaults
              20 (CreateBody.mk (Some "t"%string) None None None
                                (Some "ann"%string) None)
              (IssueCreate.mk "t" None OPEN MEDIUM "ann" None) [] eq_refl)
    as ((row & E & Hs & Hp) & _).
  exists row. split; [exact E|]. split; [apply Hs | apply Hp]; reflexivity.
Defined.

(** ** Ids *)

Lemma max_rowid_ub (db : Table) (m : Z) :
  max_rowid db = Some m -> forall r, In r db -> Issue.id r <= m.
Proof.
  revert m. induction db as [|x db IH]; intros m H r Hr; [destruct Hr|].
  simpl in H. destruct (max_rowid db) as [m'|] eqn:E.
  - injection H as <-. destruct Hr as [<- | Hr]; [lia|].
    specialize (IH m' eq_refl r Hr). lia.
  - injection H as <-. destruct Hr as [<- | Hr]; [lia|].
    destruct db; [destruct Hr | discriminate E].
Qed.

Lemma next_rowid_gt (db : Table) (r : Issue.t) :
  In r db -> Issue.id r < next_rowid db.
Proof.
  intros Hr. unfold next_rowid. destruct (max_rowid db) as [m|] eqn:E.
  - pose proof (max_rowid_ub db m E r Hr). lia.
  - destruct db; [destruct Hr | discriminate E].
Qed.

Lemma max_rowid_ids (db db' : Table) :
  map Issue.id db = map Issue.id db' -> max_rowid db = max_rowid db'.
Proof.
  revert db'. induction db as [|x db IH]; intros [|y db'] H;
    try discriminate; [reflexivity|].
  simpl in H. injection H as Hx Hrest. simpl.
  rewrite (IH db' Hrest), Hx. reflexivity.
Qed.

Lemma max_rowid_snoc (db : Table) (row : Issue.t) :
  (forall r, In r db -> Issue.id r < Issue.id row) ->
  max_rowid (db ++ [row]) = Some (Issue.id row).
Proof.
  induction db as [|x db IH]; intros H; [reflexivity|].
  simpl. rewrite IH by (intros r Hr; apply H; simpl; auto).
  f_equal. specialize (H x (or_introl eq_refl)). lia.
Qed.

Lemma next_rowid_snoc (db : Table) (row : Issue.t) :
  Issue.id row = next_rowid db ->
  next_rowid (db ++ [row]) = next_rowid db + 1.
Proof.
  intros E. unfold next_rowid at 1. rewrite max_rowid_snoc; [lia|].
  intros r Hr. rewrite E. apply next_rowid_gt. exact Hr.
Qed.

Lemma rewrite_row_ids (row' : Issue.t) (db : Table) :
  map Issue.id (rewrite_row row' db) = map Issue.id db.
Proof.
  unfold rewrite_row. induction db as [|x db IH]; simpl; [reflexivity|].
  rewrite IH. destruct (Issue.id x =? Issue.id row') eqn:E; [|reflexivity].
  apply Z.eqb_eq in E. congruence.
Qed.

Lemma update_ids (now : Z) (row : Issue.t) (o : Attrs.t) (db : Table) :
  map Issue.id (fst (update now row o db)) = map Issue.id db.
Proof.
  destruct (update_cases now row o db)
    as [[_ U] | [[_ (t & s & p & r & _ & _ & _ & _ & U)] | [_ [_ U]]]];
    cbv zeta in U; rewrite U; simpl; [reflexivity | | reflexivity].
  apply rewrite_row_ids.
Qed.

Lemma update_issue_ids (now issue_id : Z) (p : IssueCreate.t) (db : Table) :
  map Issue.id (fst (update_issue now issue_id p db)) = map Issue.id db.
Proof.
  unfold update_issue. destruct (query_first issue_id db); try reflexivity.
  apply update_ids.
Qed.

Lemma partial_update_issue_ids (now issue_id : Z) (p : IssueUpdate.t)
    (db : Table) :
  map Issue.id (fst (partial_update_issue now issue_id p db)) = map Issue.id db.
Proof.
  unfold partial_update_issue.
  destruct (query_first issue_id db); try reflexivity.
  apply update_ids.
Qed.

Lemma ascending_NoDup (l : list Z) : StronglySorted Z.lt l -> NoDup l.
Proof.
  induction 1 as [|a l _ IH Hall]; constructor; [|exact IH].
  intros Hin. rewrite Forall_forall in Hall. specialize (Hall a Hin). lia.
Qed.

Lemma ascending_snoc (l : list Z) (x : Z) :
  StronglySorted Z.lt l -> (forall y, In y l -> y < x) ->
  StronglySorted Z.lt (l ++ [x]).
Proof.
  induction 1 as [|a l _ IH Hall]; intros Hx; simpl.
  - constructor; constructor.
  - constructor.
    + apply IH. intros y Hy. apply Hx. simpl; auto.
    + apply Forall_app. split; [exact Hall|].
      constructor; [|constructor]. apply Hx. simpl; auto.
Qed.

Lemma ascending_filter (f : Issue.t -> bool) (db : Table) :
  ascending db -> ascending (filter f db).
Proof.
  unfold ascending. induction db as [|x db IH]; simpl; intros H; [exact H|].
  apply StronglySorted_inv in H. destruct H as [Hs Hall].
  destruct (f x); simpl; [|apply IH; exact Hs].
  constructor; [apply IH; exact Hs|].
  rewrite Forall_forall in *. intros y Hy. apply Hall.
  apply in_map_iff in Hy. destruct Hy as (r & <- & Hr).
  apply filter_In in Hr. apply in_map. tauto.
Qed.

Lemma create_issue_fresh (now : Z) (p : IssueCreate.t) (db : Table) :
  exists row,
    create_issue now p db = (db ++ [row], Success row)
    /\ Issue.id row = next_rowid db
    /\ forall r, In r db -> Issue.id r < Issue.id row.
Proof.
  destruct (create_issue_ok now p db) as (row & E & Hid & _).
  exists row. split; [exact E|]. split; [exact Hid|].
  intros r Hr. rewrite Hid. apply next_rowid_gt. exact Hr.
Qed.

Lemma exec_ascending (now : Z) (c : Call) (db : Table) :
  ascending db -> ascending (fst (exec now c db)).
Proof.
  intros H. destruct c as [p | st pr asg skip limit | i | i p | i p | i];
    cbn [exec].
  - destruct (create_issue_fresh now p db) as (row & E & _ & Hlt).
    rewrite E. simpl. unfold ascending. rewrite map_app. simpl.
    apply ascending_snoc; [exact H|].
    intros y Hy. apply in_map_iff in Hy. destruct Hy as (r & <- & Hr).
    apply Hlt. exact Hr.
  - exact H.
  - exact H.
  - pose proof (update_issue_ids now i p db) as E.
    destruct (update_issue now i p db) as [db' r]. simpl in *.
    unfold ascending. rewrite E. exact H.
  - pose proof (partial_update_issue_ids now i p db) as E.
    destruct (partial_update_issue now i p db) as [db' r]. simpl in *.
    unfold ascending. rewrite E. exact H.
  - unfold delete_issue. destruct (query_first i db) as [row| |]; simpl;
      try exact H.
    apply ascending_filter. exact H.
Qed.

Lemma run_cons (now : Z) (c : Call) (rest : list (Z * Call)) (db : Table) :
  run ((now, c) :: rest) db =
  (fst (run rest (fst (exec now c db))),
   snd (exec now c db) :: snd (run rest (fst (exec now c db)))).
Proof.
  simpl. destruct (exec now c db) as [db1 r]. simpl.
  destruct (run rest db1) as [db2 rs]. reflexivity.
Qed.

Lemma run_ascending (calls : list (Z * Call)) (db : Table) :
  ascending db -> ascending (fst (run calls db)).
Proof.
  revert db. induction calls as [|[now c] rest IH]; intros db H; [exact H|].
  rewrite run_cons. simpl. apply IH, exec_ascending, H.
Qed.

(** Without a Delete the ids that Create returns go up, starting from the
    next rowid of the table the sequence starts on. *)
Lemma created_ids_increasing (calls : list (Z * Call)) (db : Table) :
  no_Delete calls = true ->
  let ids := created_ids calls (snd (run calls db)) in
  StronglySorted Z.lt ids /\ Forall (fun i => next_rowid db <= i) ids.
Proof.
  revert db. induction calls as [|[now c] rest IH]; intros db Hnd.
  - simpl. split; constructor.
  - simpl in Hnd. apply andb_true_iff in Hnd. destruct Hnd as [Hc Hrest].
    rewrite run_cons. cbv zeta. cbn [snd].
    destruct c as [p | st pr asg skip limit | i | i p | i p | i];
      try discriminate Hc; cbn [exec].
    + destruct (create_issue_fresh now p db) as (row & E & Hid & _).
      rewrite E. simpl.
      destruct (IH (db ++ [row]) Hrest) as [Hs Hall].
      rewrite (next_rowid_snoc db row Hid) in Hall.
      rewrite Forall_forall in Hall. split.
      * constructor; [exact Hs|]. rewrite Forall_forall.
        intros y Hy. specialize (Hall y Hy). lia.
      * constructor; [lia|]. rewrite Forall_forall.
        intros y Hy. specialize (Hall y Hy). lia.
    + simpl. apply IH, Hrest.
    + simpl. apply IH, Hrest.
    + pose proof (update_issue_ids now i p db) as E.
      destruct (update_issue now i p db) as [db' r]. simpl in *.
      destruct (IH db' Hrest) as [Hs Hall]. split; [exact Hs|].
      unfold next_rowid in *. rewrite <- (max_rowid_ids _ _ E). exact Hall.
    + pose proof (partial_update_issue_ids now i p db) as E.
      destruct (partial_update_issue now i p db) as [db' r]. simpl in *.
      destruct (IH db' Hrest) as [Hs Hall]. split; [exact Hs|].
      unfold next_rowid in *. rewrite <- (max_rowid_ids _ _ E). exact Hall.
Qed.


(** * Further properties of the handlers *)

(** ** The enumerations *)

(** X1.  Looking a member up by its value inverts taking the value, for
    both enumerations: every member is found by its own value, and a string
    that finds a member is that member's value; so the values are pairwise
    different and any other string finds nothing. *)
Theorem enum_value_round_trip :
  (forall s, IssueStatus_of_value (IssueStatus_value s) = Some s)
  /\ (forall p, IssuePriority_of_value (IssuePriority_value p) = Some p)
  /\ (forall v, match IssueStatus_of_value v with
                | Some s => IssueStatus_value s = v
                | None => forall s, IssueStatus_value s <> v
                end)
  /\ (forall v, match IssuePriority_of_value v with
                | Some p => IssuePriority_value p = v
                | None => forall p, IssuePriority_value p <> v
                end).
Proof.
  split; [intros []; reflexivity|].
  split; [intros []; reflexivity|].
  split; intros v.
  - destruct (IssueStatus_of_value v) as [s|] eqn:E.
    + unfold IssueStatus_of_value in E. apply find_some in E.
      apply String.eqb_eq, E.
    + intros s Hs. unfold IssueStatus_of_value in E.
      pose proof (find_none _ _ E s) as N. cbv beta in N.
      rewrite Hs, String.eqb_refl in N.
      assert (In s [OPEN; IN_PROGRESS; RESOLVED; CLOSED]) as Hin
          by (destruct s; simpl; tauto).
      specialize (N Hin). discriminate N.
  - destruct (IssuePriority_of_value v) as [p|] eqn:E.
    + unfold IssuePriority_of_value in E. apply find_some in E.
      apply String.eqb_eq, E.
    + intros p Hp. unfold IssuePriority_of_value in E.
      pose proof (find_none _ _ E p) as N. cbv beta in N.
      rewrite Hp, String.eqb_refl in N.
      assert (In p [LOW; MEDIUM; HIGH; CRITICAL]) as Hin
          by (destruct p; simpl; tauto).
      specialize (N Hin). discriminate N.
Qed.

(** ** GET /issues/{issue_id} *)

(** X2.  Get has three outcomes, told apart by the id alone and the
    table: an id outside the signed 64-bit range makes the lookup raise
    [OverflowError]; an id in the range that a stored issue has is answered
    with a stored issue of that id; an id in the range that no stored issue
    has is answered with NotFound for that id. *)
Theorem get_issue_finds_stored_id (issue_id : Z) (db : Table) :
  match get_issue issue_id db with
  | Success r =>
      INT64_MIN <= issue_id <= INT64_MAX
      /\ Issue.id r = issue_id /\ In r db
  | HTTP_404_NOT_FOUND i =>
      INT64_MIN <= issue_id <= INT64_MAX
      /\ i = issue_id /\ forall r, In r db -> Issue.id r <> issue_id
  | OverflowError => issue_id < INT64_MIN \/ INT64_MAX < issue_id
  | _ => False
  end.
Proof.
  unfold get_issue. destruct (query_first issue_id db) as [r| |] eqn:E.
  - pose proof (query_first_id _ _ _ E). pose proof (query_first_In _ _ _ E).
    apply query_first_Row in E. destruct E as [Hb _].
    apply bindable_bounds in Hb. auto.
  - apply query_first_NoRow in E. destruct E as [Hb E].
    apply bindable_bounds in Hb. auto.
  - apply query_first_Unbindable in E. unfold bindable in E.
    rewrite andb_false_iff, !Z.leb_gt in E. lia.
Qed.

(** ** POST /issues/ then GET *)

Lemma select_first_snoc (j : Z) (db : Table) (row : Issue.t) :
  select_first j (db ++ [row]) =
  match select_first j db with
  | Some r => Some r
  | None => if Issue.id row =? j then Some row else None
  end.
Proof.
  unfold select_first. induction db as [|x db IH]; simpl; [reflexivity|].
  destruct (Issue.id x =? j); [reflexivity | exact IH].
Qed.

Lemma select_first_fresh (db : Table) :
  select_first (next_rowid db) db = None.
Proof.
  apply select_first_None. intros r Hr.
  pose proof (next_rowid_gt db r Hr). lia.
Qed.

Lemma query_first_snoc_other (j : Z) (db : Table) (row : Issue.t) :
  j <> Issue.id row -> query_first j (db ++ [row]) = query_first j db.
Proof.
  intros Hj. apply query_first_same. rewrite select_first_snoc.
  destruct (select_first j db); [reflexivity|].
  assert ((Issue.id row =? j) = false) as -> by (apply Z.eqb_neq; congruence).
  reflexivity.
Qed.

Lemma query_first_fresh (db : Table) :
  bindable (next_rowid db) = true ->
  query_first (next_rowid db) db = NoRow.
Proof.
  intros Hb. rewrite (query_first_select _ _ Hb), select_first_fresh.
  reflexivity.
Qed.

(** X3.  Create always succeeds on a validated payload: the issue it
    answers with carries the payload's six fields, both timestamps equal to
    the time of the call and an id no stored issue had; a Get of any other
    id answers as before the Create; a Get of the new id answers as for any
    id that is not stored before the Create, and with the same issue right
    after it, the new id being one the driver can bind. *)
Theorem create_then_get (now : Z) (p : IssueCreate.t) (db : Table) :
  exists row,
    create_issue now p db = (db ++ [row], Success row)
    /\ Issue.title row = IssueCreate.title p
    /\ Issue.description row = IssueCreate.description p
    /\ Issue.status row = IssueCreate.status p
    /\ Issue.priority row = IssueCreate.priority p
    /\ Issue.reporter row = IssueCreate.reporter p
    /\ Issue.assignee row = IssueCreate.assignee p
    /\ Issue.created_at row = now
    /\ Issue.updated_at row = now
    /\ (forall r, In r db -> Issue.id r <> Issue.id row)
    /\ (forall j, j <> Issue.id row ->
                  get_issue j (db ++ [row]) = get_issue j db)
    /\ get_issue (Issue.id row) db = absent_answer (Issue.id row)
    /\ get_issue (Issue.id row) (db ++ [row])
       = (if bindable (Issue.id row) then Success row else OverflowError)
    /\ (bindable (Issue.id row) = true ->
        get_issue (Issue.id row) db = HTTP_404_NOT_FOUND (Issue.id row)
        /\ get_issue (Issue.id row) (db ++ [row]) = Success row).
Proof.
  unfold create_issue. cbv zeta. rewrite setattrs_full.
  unfold insert. cbn [Attrs.title Attrs.reporter Attrs.status Attrs.priority
                      Attrs.description Attrs.assignee].
  eexists. split; [reflexivity|]. cbn [Issue.id Issue.title Issue.description
    Issue.status Issue.priority Issue.reporter Issue.assignee Issue.created_at
    Issue.updated_at].
  repeat (split; [reflexivity|]).
  assert (bindable (next_rowid db) = true ->
          get_issue (next_rowid db) db = HTTP_404_NOT_FOUND (next_rowid db)
          /\ forall row, Issue.id row = next_rowid db ->
               get_issue (next_rowid db) (db ++ [row]) = Success row) as Hin.
  { intros Hb. unfold get_issue. rewrite (query_first_fresh db Hb).
    split; [reflexivity|]. intros row Hid.
    rewrite (query_first_select _ _ Hb), select_first_snoc, select_first_fresh.
    rewrite Hid, Z.eqb_refl. reflexivity. }
  split; [|split; [|split; [|split]]].
  - intros r Hr. pose proof (next_rowid_gt db r Hr). lia.
  - intros j Hj. unfold get_issue.
    rewrite query_first_snoc_other by exact Hj. reflexivity.
  - unfold absent_answer. destruct (bindable (next_rowid db)) eqn:Hb.
    + apply Hin. reflexivity.
    + unfold get_issue.
      rewrite (proj2 (query_first_Unbindable _ _) Hb). reflexivity.
  - destruct (bindable (next_rowid db)) eqn:Hb.
    + apply Hin; reflexivity.
    + unfold get_issue.
      rewrite (proj2 (query_first_Unbindable _ _) Hb). reflexivity.
  - intros Hb. split; [apply Hin; exact Hb | apply Hin; [exact Hb | reflexivity]].
Qed.

(** ** PUT and PATCH *)

(** X4.  FullUpdate is PartialUpdate with every field provided: a PUT with
    a payload and a PATCH that sets all six fields to the payload's values
    give the same table and the same answer. *)
Theorem update_issue_is_full_patch
    (now issue_id : Z) (p : IssueCreate.t) (db : Table) :
  update_issue now issue_id p db
  = partial_update_issue now issue_id (patch_of p) db.
Proof.
  unfold update_issue, partial_update_issue.
  destruct (query_first issue_id db) as [old| |]; [|reflexivity|reflexivity].
  cbv zeta. rewrite setattrs_full, setattrs_patch. reflexivity.
Qed.

Lemma update_same (now : Z) (row : Issue.t) (db : Table) :
  update now row (loaded row) db = (db, Success row).
Proof.
  unfold update.
  assert (Attrs_eqb (loaded row) (loaded row) = true) as ->
      by (apply Attrs_eqb_eq; reflexivity).
  reflexivity.
Qed.

(** A successful [update] answers with a row that holds the assigned
    attributes, under the id and creation time of the row it loaded. *)
Lemma update_success (now : Z) (row : Issue.t) (o : Attrs.t) (db db' : Table)
    (new : Issue.t) :
  update now row o db = (db', Success new) ->
  loaded new = o
  /\ Issue.id new = Issue.id row
  /\ Issue.created_at new = Issue.created_at row
  /\ ((db' = db /\ new = row)
      \/ (db' = rewrite_row new db /\ Issue.updated_at new = now
          /\ o <> loaded row)).
Proof.
  intros H.
  destruct (update_cases now row o db)
    as [[E U] | [[E (t & s & p & r & Ht & Hs & Hp & Hr & U)] | [_ [_ U]]]];
    cbv zeta in U; rewrite U in H.
  - injection H as <- <-. subst o. repeat split. left. split; reflexivity.
  - injection H as <- <-. unfold loaded. cbn.
    split.
    { destruct o; cbn in *. congruence. }
    repeat split. right. repeat split. exact E.
  - discriminate H.
Qed.

Lemma update_stored (now : Z) (row : Issue.t) (o : Attrs.t) (db db' : Table)
    (new : Issue.t) :
  query_first (Issue.id row) db = Row row ->
  update now row o db = (db', Success new) ->
  query_first (Issue.id row) db' = Row new.
Proof.
  intros Hq H. destruct (update_success _ _ _ _ _ _ H)
    as (_ & Hid & _ & [[-> ->] | (-> & _ & _)]); [exact Hq|].
  rewrite <- Hid. apply (query_first_rewrite_same new row).
  rewrite Hid. exact Hq.
Qed.

Lemma update_failure (now : Z) (row : Issue.t) (o : Attrs.t) (db : Table) :
  is_Success (snd (update now row o db)) = false ->
  update now row o db = (db, IntegrityError)
  /\ forall now', update now' row o db = (db, IntegrityError).
Proof.
  intros H.
  destruct (update_cases now row o db)
    as [[E U] | [[E (t & s & p & r & Ht & Hs & Hp & Hr & U)] | [E [N U]]]];
    cbv zeta in U; rewrite U in H; try discriminate H.
  split; [exact U|]. intros now'.
  destruct (update_cases now' row o db)
    as [[E' _] | [[_ (t & s & p & r & Ht & Hs & Hp & Hr & _)] | [_ [_ U']]]].
  - contradiction.
  - destruct N as [N | [N | [N | N]]]; congruence.
  - exact U'.
Qed.

Lemma update_issue_write (now issue_id : Z) (p : IssueCreate.t) (db : Table) :
  update_issue now issue_id p db = write_items now issue_id (model_dump p) db.
Proof. reflexivity. Qed.

Lemma partial_update_issue_write (now issue_id : Z) (p : IssueUpdate.t)
    (db : Table) :
  partial_update_issue now issue_id p db
  = write_items now issue_id (model_dump_exclude_unset p) db.
Proof. reflexivity. Qed.

(** Assigning the same items again brings nothing new, so a second write
    with them finds nothing to write. *)
Lemma write_items_twice (now1 now2 issue_id : Z) (items : list Item)
    (db : Table) :
  (forall o, setattrs (setattrs o items) items = setattrs o items) ->
  write_items now2 issue_id items (fst (write_items now1 issue_id items db))
  = (fst (write_items now1 issue_id items db),
     snd (write_items now1 issue_id items db)).
Proof.
  intros Hidem. unfold write_items at 2 3 4.
  destruct (query_first issue_id db) as [old| |] eqn:Hold.
  - pose proof (query_first_id _ _ _ Hold) as Hid.
    destruct (update now1 old (setattrs (loaded old) items) db)
      as [db1 [new | | | |]] eqn:U; cbn [fst snd].
    2-5: assert (is_Success
                   (snd (update now1 old (setattrs (loaded old) items) db))
                 = false) as F by (rewrite U; reflexivity);
         destruct (update_failure _ _ _ _ F) as [U1 U2];
         rewrite U1 in U; try discriminate U; injection U as <-;
         unfold write_items; rewrite Hold; apply U2.
    destruct (update_success _ _ _ _ _ _ U) as (Hl & _ & _ & _).
    assert (query_first issue_id db1 = Row new) as Hq.
    { rewrite <- Hid.
      apply (update_stored now1 old (setattrs (loaded old) items) db);
        [|exact U].
      rewrite Hid. exact Hold. }
    unfold write_items. rewrite Hq, Hl, Hidem, <- Hl.
    apply update_same.
  - cbn [fst snd]. unfold write_items. rewrite Hold. reflexivity.
  - cbn [fst snd]. unfold write_items. rewrite Hold. reflexivity.
Qed.

(** X5.  Repeating a FullUpdate, or a PartialUpdate, with the same payload
    changes nothing more: whatever the time of the second call, it gives the
    same answer as the first, [updated_at] included, and leaves the table as
    the first call left it. *)
Theorem update_twice_same_state
    (now1 now2 issue_id : Z) (full : IssueCreate.t) (patch : IssueUpdate.t)
    (db : Table) :
  update_issue now2 issue_id full (fst (update_issue now1 issue_id full db))
  = update_issue now1 issue_id full db
  /\ partial_update_issue now2 issue_id patch
       (fst (partial_update_issue now1 issue_id patch db))
     = partial_update_issue now1 issue_id patch db.
Proof.
  rewrite !update_issue_write, !partial_update_issue_write. split.
  - rewrite write_items_twice; [symmetry; apply surjective_pairing|].
    intros o. rewrite !setattrs_full. reflexivity.
  - rewrite write_items_twice; [symmetry; apply surjective_pairing|].
    intros o. rewrite !setattrs_patch. cbn.
    destruct patch as [[?|] [?|] [?|] [?|] [?|] [?|]]; reflexivity.
Qed.

(** A payload that sets no required column to null assigns a value to each
    of them. *)
Lemma patched_required (old : Issue.t) (p : IssueUpdate.t) :
  nulls_required p = false ->
  let o := setattrs (loaded old) (model_dump_exclude_unset p) in
  Attrs.title o <> None /\ Attrs.status o <> None
  /\ Attrs.priority o <> None /\ Attrs.reporter o <> None.
Proof.
  intros Hn. cbv zeta. rewrite setattrs_patch. cbn.
  unfold nulls_required in Hn. rewrite !orb_false_iff in Hn.
  destruct Hn as [[[H1 H2] H3] H4].
  destruct p as [[[?|]|] ? [[?|]|] [[?|]|] [[?|]|] ?]; cbn in *;
    try discriminate; repeat split; discriminate.
Qed.

(** X6.  A PartialUpdate of an existing issue whose payload sets no
    required column to null succeeds, and the issue it answers with, which
    is the one stored afterwards, holds every value the payload provides: any
    status may follow any other, and a description or assignee set to null
    is cleared. *)
Theorem partial_update_applies_provided
    (now issue_id : Z) (p : IssueUpdate.t) (db : Table) (old : Issue.t)
    (Hold : query_first issue_id db = Row old)
    (Hn : nulls_required p = false) :
  let out := partial_update_issue now issue_id p db in
  exists new,
    snd out = Success new
    /\ query_first issue_id (fst out) = Row new
    /\ (forall t, IssueUpdate.title p = Some (Some t) -> Issue.title new = t)
    /\ (forall d, IssueUpdate.description p = Some d ->
                  Issue.description new = d)
    /\ (forall s, IssueUpdate.status p = Some (Some s) ->
                  Issue.status new = s)
    /\ (forall q, IssueUpdate.priority p = Some (Some q) ->
                  Issue.priority new = q)
    /\ (forall r, IssueUpdate.reporter p = Some (Some r) ->
                  Issue.reporter new = r)
    /\ (forall a, IssueUpdate.assignee p = Some a -> Issue.assignee new = a).
Proof.
  pose proof (query_first_id _ _ _ Hold) as Hid.
  pose proof (patched_required old p Hn) as R. cbv zeta in R.
  cbv zeta. unfold partial_update_issue. rewrite Hold. cbv zeta.
  destruct (update now old
              (setattrs (loaded old) (model_dump_exclude_unset p)) db)
    as [db1 [new | | | |]] eqn:U; cbn [fst snd].
  2-5: exfalso;
       pose proof (update_cases now old
                     (setattrs (loaded old) (model_dump_exclude_unset p)) db)
         as C;
       rewrite U in C;
       destruct C
         as [[_ C] | [[_ (t & s & q & r & _ & _ & _ & _ & C)] | [_ [N C]]]];
       try discriminate C;
       destruct R as (R1 & R2 & R3 & R4);
       destruct N as [N | [N | [N | N]]]; contradiction.
  destruct (update_success _ _ _ _ _ _ U) as (Hl & _ & _ & _).
  exists new. split; [reflexivity|]. split.
  { rewrite <- Hid.
    eapply update_stored; [rewrite Hid; exact Hold | exact U]. }
  rewrite setattrs_patch in Hl. unfold loaded in Hl.
  injection Hl as H1 H2 H3 H4 H5 H6.
  repeat split; intros x Hx; rewrite Hx in *; cbn in *; congruence.
Qed.

(** The PATCH body [{"status": "open", "assignee": null}]. *)
Lemma partial_update_applies_provided_witness :
  query_first 1 [sample_issue] = Row sample_issue
  /\ nulls_required
       (IssueUpdate.mk None None (Some (Some CLOSED)) None None (Some None))
     = false
  /\ exists new,
       snd (partial_update_issue 20 1
              (IssueUpdate.mk None None (Some (Some CLOSED)) None None
                              (Some None)) [sample_issue])
       = Success new
       /\ Issue.status new = CLOSED /\ Issue.assignee new = None.
Proof.
  split; [reflexivity|]. split; [reflexivity|].
  destruct (partial_update_applies_provided
              20 1 (IssueUpdate.mk None None (Some (Some CLOSED)) None None
                                   (Some None))
              [sample_issue] sample_issue eq_refl eq_refl)
    as (new & E & _ & _ & _ & Hs & _ & _ & Ha).
  exists new. split; [exact E|].
  split; [apply Hs | apply Ha]; reflexivity.
Defined.

(** X7.  A PartialUpdate of an existing issue whose payload sets title,
    status, priority or reporter to null is refused by the table, whose
    columns are NOT NULL: the call fails with an integrity error and every
    row, the issue's other provided fields included, stays as it was. *)
Theorem partial_update_null_required_refused
    (now issue_id : Z) (p : IssueUpdate.t) (db : Table) (old : Issue.t)
    (Hold : query_first issue_id db = Row old)
    (Hn : nulls_required p = true) :
  partial_update_issue now issue_id p db = (db, IntegrityError).
Proof.
  unfold partial_update_issue. rewrite Hold. cbv zeta.
  destruct (update_cases now old
              (setattrs (loaded old) (model_dump_exclude_unset p)) db)
    as [[E _] | [[_ (t & s & q & r & Ht & Hs & Hp & Hr & _)] | [_ [_ U]]]];
    [exfalso | exfalso | exact U].
  - rewrite setattrs_patch in E. unfold loaded in E.
    injection E as H1 _ H3 H4 H5 _.
    unfold nulls_required in Hn.
    destruct p as [[[?|]|] ? [[?|]|] [[?|]|] [[?|]|] ?]; cbn in *;
      discriminate.
  - rewrite setattrs_patch in Ht, Hs, Hp, Hr. cbn in Ht, Hs, Hp, Hr.
    unfold nulls_required in Hn.
    destruct p as [[[?|]|] ? [[?|]|] [[?|]|] [[?|]|] ?]; cbn in *;
      discriminate.
Qed.

Lemma partial_update_null_required_refused_witness :
  query_first 1 [sample_issue] = Row sample_issue
  /\ nulls_required
       (IssueUpdate.mk (Some None) None (Some (Some CLOSED)) None None None)
     = true
  /\ partial_update_issue 20 1
       (IssueUpdate.mk (Some None) None (Some (Some CLOSED)) None None None)
       [sample_issue]
     = ([sample_issue], IntegrityError).
Proof.
  split; [reflexivity|]. split; [reflexivity|].
  apply (partial_update_null_required_refused 20 1 _ [sample_issue]
           sample_issue); reflexivity.
Defined.

(** ** Every call *)

(** X8.  A call that does not answer with success leaves the table exactly
    as it was: a rejected List, a NotFound from Get, FullUpdate,
    PartialUpdate or Delete, a number the driver could not bind and a write
    the table refused change no row. *)
Theorem failed_call_changes_nothing (now : Z) (c : Call) (db : Table)
    (Hfail : succeeded (snd (exec now c db)) = false) :
  fst (exec now c db) = db.
Proof.
  destruct c as [p | st pr asg skip limit | i | i p | i p | i];
    cbn [exec] in *.
  - destruct (create_issue_ok now p db) as (row & E & _).
    rewrite E in Hfail. discriminate Hfail.
  - reflexivity.
  - reflexivity.
  - rewrite update_issue_write in *. unfold write_items in *.
    destruct (query_first i db) as [old| |];
    try reflexivity.
    destruct (update now old (setattrs (loaded old) (model_dump p)) db)
      as [db1 r] eqn:U. cbn in Hfail |- *.
    assert (is_Success
              (snd (update now old (setattrs (loaded old) (model_dump p)) db))
            = false) as F by (rewrite U; exact Hfail).
    destruct (update_failure _ _ _ _ F) as [U1 _]. congruence.
  - rewrite partial_update_issue_write in *. unfold write_items in *.
    destruct (query_first i db) as [old| |];
    try reflexivity.
    destruct (update now old
                (setattrs (loaded old) (model_dump_exclude_unset p)) db)
      as [db1 r] eqn:U. cbn in Hfail |- *.
    assert (is_Success
              (snd (update now old
                      (setattrs (loaded old) (model_dump_exclude_unset p)) db))
            = false) as F by (rewrite U; exact Hfail).
    destruct (update_failure _ _ _ _ F) as [U1 _]. congruence.
  - unfold delete_issue in *. destruct (query_first i db); try reflexivity.
    discriminate Hfail.
Qed.

Lemma failed_call_changes_nothing_witness :
  succeeded (snd (exec 20 (Delete 7) [sample_issue])) = false
  /\ fst (exec 20 (Delete 7) [sample_issue]) = [sample_issue].
Proof.
  split; [reflexivity|].
  apply (failed_call_changes_nothing 20 (Delete 7) [sample_issue]).
  reflexivity.
Defined.

Lemma select_first_delete (row : Issue.t) (j : Z) (db : Table) :
  select_first j (delete row db)
  = if j =? Issue.id row then None else select_first j db.
Proof.
  unfold select_first, delete.
  induction db as [|x db IH]; simpl; [destruct (j =? Issue.id row); reflexivity|].
  destruct (Issue.id x =? Issue.id row) eqn:E; simpl.
  - rewrite IH. apply Z.eqb_eq in E.
    destruct (j =? Issue.id row) eqn:J; [reflexivity|].
    apply Z.eqb_neq in J.
    assert ((Issue.id x =? j) = false) as -> by (apply Z.eqb_neq; congruence).
    reflexivity.
  - destruct (Issue.id x =? j) eqn:X.
    + apply Z.eqb_eq in X. apply Z.eqb_neq in E.
      assert ((j =? Issue.id row) = false) as ->
          by (apply Z.eqb_neq; congruence).
      reflexivity.
    + exact IH.
Qed.

Lemma query_first_delete_other (row : Issue.t) (j : Z) (db : Table) :
  j <> Issue.id row -> query_first j (delete row db) = query_first j db.
Proof.
  intros Hj. apply query_first_same. rewrite select_first_delete.
  assert ((j =? Issue.id row) = false) as -> by (apply Z.eqb_neq; exact Hj).
  reflexivity.
Qed.

Lemma query_first_delete_same (row : Issue.t) (db : Table) :
  bindable (Issue.id row) = true ->
  query_first (Issue.id row) (delete row db) = NoRow.
Proof.
  intros Hb. rewrite (query_first_select _ _ Hb), select_first_delete.
  rewrite Z.eqb_refl. reflexivity.
Qed.

(** X9.  A call writes to one issue at most: the one a Create adds under
    the next rowid, or the one whose id a FullUpdate, PartialUpdate or Delete
    names.  A lookup of any other id gives after the call what it gave
    before. *)
Theorem call_touches_one_issue (now : Z) (c : Call) (db : Table) (j : Z)
    (Hother : target c db <> Some j) :
  get_issue j (fst (exec now c db)) = get_issue j db.
Proof.
  unfold get_issue.
  assert (query_first j (fst (exec now c db)) = query_first j db) as ->;
    [|reflexivity].
  destruct c as [p | st pr asg skip limit | i | i p | i p | i];
    cbn [exec target] in *; try reflexivity.
  - destruct (create_issue_ok now p db) as (row & E & Hid & _).
    rewrite E. cbn [fst]. apply query_first_snoc_other. congruence.
  - rewrite update_issue_write. unfold write_items.
    destruct (query_first i db) as [old| |] eqn:Hold;
    try reflexivity.
    pose proof (query_first_id _ _ _ Hold) as Hid.
    destruct (update now old (setattrs (loaded old) (model_dump p)) db)
      as [db1 [new | | | |]] eqn:U; cbn [fst];
      try (assert (is_Success
                     (snd (update now old
                             (setattrs (loaded old) (model_dump p)) db))
                   = false) as F by (rewrite U; reflexivity);
           destruct (update_failure _ _ _ _ F) as [U1 _];
           rewrite U1 in U; injection U as <-; reflexivity).
    destruct (update_success _ _ _ _ _ _ U)
      as (_ & Hn & _ & [[-> _] | (-> & _ & _)]); [reflexivity|].
    apply query_first_rewrite_other. congruence.
  - rewrite partial_update_issue_write. unfold write_items.
    destruct (query_first i db) as [old| |] eqn:Hold;
    try reflexivity.
    pose proof (query_first_id _ _ _ Hold) as Hid.
    destruct (update now old
                (setattrs (loaded old) (model_dump_exclude_unset p)) db)
      as [db1 [new | | | |]] eqn:U; cbn [fst];
      try (assert (is_Success
                     (snd (update now old
                             (setattrs (loaded old)
                                       (model_dump_exclude_unset p)) db))
                   = false) as F by (rewrite U; reflexivity);
           destruct (update_failure _ _ _ _ F) as [U1 _];
           rewrite U1 in U; injection U as <-; reflexivity).
    destruct (update_success _ _ _ _ _ _ U)
      as (_ & Hn & _ & [[-> _] | (-> & _ & _)]); [reflexivity|].
    apply query_first_rewrite_other. congruence.
  - unfold delete_issue.
    destruct (query_first i db) as [old| |] eqn:Hold;
    try reflexivity.
    pose proof (query_first_id _ _ _ Hold) as Hid.
    cbn [fst]. apply query_first_delete_other. congruence.
Qed.

Lemma call_touches_one_issue_witness :
  target (Delete 2) mixed_issues <> Some 1
  /\ get_issue 1 (fst (exec 20 (Delete 2) mixed_issues))
     = get_issue 1 mixed_issues.
Proof.
  assert (target (Delete 2) mixed_issues <> Some 1) as H by discriminate.
  split; [exact H|].
  apply (call_touches_one_issue 20 (Delete 2) mixed_issues 1 H).
Defined.

(** ** DELETE /issues/{issue_id} *)

(** X10.  Delete of a stored id succeeds with the message that names the
    id and removes the issue for good: the table keeps exactly the rows of
    the other ids, a Get of the id then answers NotFound, and so does a
    second Delete, which changes nothing. *)
Theorem delete_then_get (issue_id : Z) (db : Table) (old : Issue.t)
    (Hold : query_first issue_id db = Row old) :
  let db' := fst (delete_issue issue_id db) in
  snd (delete_issue issue_id db)
  = Success ("Issue " ++ str_int issue_id ++ " deleted successfully")%string
  /\ (forall r, In r db' <-> In r db /\ Issue.id r <> issue_id)
  /\ get_issue issue_id db' = HTTP_404_NOT_FOUND issue_id
  /\ delete_issue issue_id db' = (db', HTTP_404_NOT_FOUND issue_id).
Proof.
  pose proof (query_first_id _ _ _ Hold) as Hid.
  unfold delete_issue at 1 2. rewrite Hold. cbn [fst snd].
  assert (query_first issue_id (delete old db) = NoRow) as Hgone.
  { rewrite <- Hid. apply query_first_delete_same. rewrite Hid.
    apply query_first_Row in Hold. apply Hold. }
  split; [reflexivity|]. split; [|split].
  - intros r. unfold delete. rewrite filter_In, negb_true_iff, Z.eqb_neq, Hid.
    reflexivity.
  - unfold get_issue. rewrite Hgone. reflexivity.
  - unfold delete_issue. rewrite Hgone. reflexivity.
Qed.

Lemma delete_then_get_witness :
  query_first 2 mixed_issues = Row (Issue.mk 2 "b" None OPEN LOW "ann" None 11 11)
  /\ get_issue 2 (fst (delete_issue 2 mixed_issues)) = HTTP_404_NOT_FOUND 2.
Proof.
  split; [reflexivity|].
  destruct (delete_then_get 2 mixed_issues _ eq_refl) as (_ & _ & G & _).
  exact G.
Defined.

(** ** What List shows of a write *)

Lemma filter_keeps_all {A} (f : A -> bool) (l : list A) :
  (forall x, In x l -> f x = true) -> filter f l = l.
Proof.
  induction l as [|x l IH]; intros H; simpl; [reflexivity|].
  rewrite (H x) by (simpl; auto). f_equal. apply IH.
  intros y Hy. apply H. simpl; auto.
Qed.

(** Under the primary key, the DELETE takes one row out of the table and
    keeps the others in their order. *)
Lemma delete_splits (i : Z) (db : Table) (old : Issue.t) :
  NoDup (map Issue.id db) -> select_first i db = Some old ->
  exists l1 l2, db = l1 ++ old :: l2 /\ delete old db = l1 ++ l2.
Proof.
  unfold select_first. induction db as [|x db IH]; simpl; intros Hnd Hq;
    [discriminate|].
  apply NoDup_cons_iff in Hnd. destruct Hnd as [Hx Hnd].
  destruct (Issue.id x =? i) eqn:E.
  - injection Hq as <-. exists [], db. split; [reflexivity|].
    unfold delete. simpl. rewrite Z.eqb_refl. simpl.
    apply filter_keeps_all. intros y Hy.
    apply negb_true_iff, Z.eqb_neq. intros Heq. apply Hx.
    rewrite <- Heq. apply in_map. exact Hy.
  - destruct (IH Hnd Hq) as (l1 & l2 & -> & Hd).
    exists (x :: l1), l2. split; [reflexivity|].
    pose proof (find_some _ _ Hq) as [_ Hid]. apply Z.eqb_eq in Hid.
    unfold delete in *. simpl. rewrite Hid, E. simpl. f_equal.
    rewrite <- Hid. exact Hd.
Qed.

(** X11.  On a table whose ids are pairwise distinct, as the primary key
    makes them, deleting a stored issue lowers the [total] of a List by
    exactly 1 when the issue passed the List's filters, so always for a List
    without filters, and leaves it as it was otherwise; the List is any that
    is served, with pagination parameters that the validation accepts and
    the driver can bind. *)
Theorem delete_lowers_total
    (issue_id : Z) (db : Table) (old : Issue.t)
    (st : option IssueStatus) (pr : option IssuePriority)
    (asg : option string) (skip limit : Z)
    (Hkey : NoDup (map Issue.id db))
    (Hold : query_first issue_id db = Row old)
    (Hv : valid_page skip limit = true)
    (Hb : bindable skip = true) :
  exists before after,
    list_issues st pr asg skip limit db = Success before
    /\ list_issues st pr asg skip limit (fst (delete_issue issue_id db))
       = Success after
    /\ IssueListResponse.total after
       = IssueListResponse.total before
         - (if matches st pr asg old then 1 else 0)
    /\ matches None None None old = true.
Proof.
  rewrite !(list_issues_unfold _ _ _ _ _ _ Hv Hb). cbv zeta.
  do 2 eexists. split; [reflexivity|]. split; [reflexivity|].
  split; [|reflexivity]. cbn [IssueListResponse.total].
  unfold delete_issue. rewrite Hold. cbn [fst].
  apply query_first_Row in Hold. destruct Hold as [_ Hold].
  destruct (delete_splits issue_id db old Hkey Hold) as (l1 & l2 & -> & ->).
  rewrite !filter_app. simpl.
  destruct (matches st pr asg old); rewrite !length_app; simpl; lia.
Qed.

Lemma delete_lowers_total_witness :
  NoDup (map Issue.id five_issues)
  /\ query_first 3 five_issues
     = Row (Issue.mk 3 "t" None OPEN HIGH "ann" None 10 10)
  /\ valid_page 0 100 = true
  /\ bindable 0 = true
  /\ exists before after,
       list_issues None None None 0 100 five_issues = Success before
       /\ list_issues None None None 0 100 (fst (delete_issue 3 five_issues))
          = Success after
       /\ IssueListResponse.total after = IssueListResponse.total before - 1.
Proof.
  assert (NoDup (map Issue.id five_issues)) as Hkey.
  { apply ascending_NoDup. simpl.
    repeat (constructor; [|repeat constructor; lia]). constructor. }
  split; [exact Hkey|]. split; [reflexivity|]. split; [reflexivity|].
  split; [reflexivity|].
  destruct (delete_lowers_total 3 five_issues _ None None None 0 100
              Hkey eq_refl eq_refl eq_refl) as (before & after & B & A & T & _).
  exists before, after. split; [exact B|]. split; [exact A | exact T].
Defined.

(** X12.  A Create raises the [total] of a List by exactly 1 when the new
    issue passes the List's filters, so always for a List without filters,
    and leaves it as it was otherwise; the List is any that is served, with
    pagination parameters that the validation accepts and the driver can
    bind. *)
Theorem create_raises_total
    (now : Z) (p : IssueCreate.t) (db : Table)
    (st : option IssueStatus) (pr : option IssuePriority)
    (asg : option string) (skip limit : Z)
    (Hv : valid_page skip limit = true)
    (Hb : bindable skip = true) :
  exists row before after,
    snd (create_issue now p db) = Success row
    /\ list_issues st pr asg skip limit db = Success before
    /\ list_issues st pr asg skip limit (fst (create_issue now p db))
       = Success after
    /\ IssueListResponse.total after
       = IssueListResponse.total before
         + (if matches st pr asg row then 1 else 0)
    /\ matches None None None row = true.
Proof.
  rewrite !(list_issues_unfold _ _ _ _ _ _ Hv Hb). cbv zeta.
  destruct (create_issue_ok now p db) as (row & E & _).
  rewrite E. cbn [fst snd].
  exists row. do 2 eexists. split; [reflexivity|].
  split; [reflexivity|]. split; [reflexivity|].
  split; [|reflexivity]. cbn [IssueListResponse.total].
  rewrite filter_app. simpl.
  destruct (matches st pr asg row); rewrite length_app; simpl; lia.
Qed.

Lemma create_raises_total_witness :
  valid_page 0 100 = true
  /\ bindable 0 = true
  /\ exists row before after,
       snd (create_issue 20 sample_create five_issues) = Success row
       /\ list_issues (Some OPEN) None None 0 100 five_issues = Success before
       /\ list_issues (Some OPEN) None None 0 100
            (fst (create_issue 20 sample_create five_issues)) = Success after
       /\ IssueListResponse.total after = IssueListResponse.total before + 1.
Proof.
  split; [reflexivity|]. split; [reflexivity|].
  destruct (create_raises_total 20 sample_create five_issues
              (Some OPEN) None None 0 100 eq_refl eq_refl)
    as (row & before & after & R & B & A & T & _).
  exists row, before, after.
  split; [exact R|]. split; [exact B|]. split; [exact A|].
  rewrite T. injection R as <-. reflexivity.
Defined.

(** ** Pagination *)

Lemma firstn_plus {A} (a b : nat) (l : list A) :
  firstn (a + b) l = firstn a l ++ firstn b (skipn a l).
Proof.
  revert l. induction a as [|a IH]; intros [|x l]; simpl;
    try reflexivity.
  - rewrite firstn_nil. reflexivity.
  - rewrite IH. reflexivity.
Qed.

Lemma issues_of_list_issues (st : option IssueStatus)
    (pr : option IssuePriority) (asg : option string) (skip limit : Z)
    (db : Table) :
  valid_page skip limit = true ->
  bindable skip = true \/ Z.of_nat (List.length db) <= skip ->
  issues_of (list_issues st pr asg skip limit db)
  = page skip limit (filter (matches st pr asg) db).
Proof.
  intros Hv Hb. destruct (bindable skip) eqn:B.
  - rewrite (list_issues_unfold _ _ _ _ _ _ Hv B). reflexivity.
  - destruct Hb as [Hb | Hb]; [discriminate Hb|].
    unfold list_issues. rewrite Hv, B. cbn [andb issues_of].
    unfold page. apply valid_page_bounds in Hv.
    pose proof (filter_length_le (matches st pr asg) db) as Hle.
    rewrite skipn_all2 by lia. symmetry. apply firstn_nil.
Qed.

Lemma list_issues_overflow (st : option IssueStatus)
    (pr : option IssuePriority) (asg : option string) (skip limit : Z)
    (db : Table) :
  valid_page skip limit = true -> bindable skip = false ->
  list_issues st pr asg skip limit db = OverflowError.
Proof. intros Hv B. unfold list_issues. rewrite Hv, B. reflexivity. Qed.

(** X13.  Walking a listing page by page, with the same filters and an
    accepted [limit] and with [skip] going 0, [limit], 2 [limit], ..., returns
    the matching issues in table order, none twice and none left out: the
    first [k] pages together are the first [k * limit] matching issues, and
    all of them once [k * limit] reaches [total].  The table has no more rows
    than there are rowids, so a page whose offset the driver cannot bind lies
    past the end and the failed request adds nothing. *)
Theorem pages_tile_the_listing
    (st : option IssueStatus) (pr : option IssuePriority)
    (asg : option string) (limit : Z) (k : nat) (db : Table)
    (Hl : 1 <= limit <= 100)
    (Hsize : Z.of_nat (List.length db) <= INT64_MAX) :
  first_pages st pr asg limit k db
  = firstn (k * Z.to_nat limit) (filter (matches st pr asg) db)
  /\ (Z.of_nat (List.length (filter (matches st pr asg) db))
      <= Z.of_nat k * limit ->
      first_pages st pr asg limit k db = filter (matches st pr asg) db).
Proof.
  assert (first_pages st pr asg limit k db
          = firstn (k * Z.to_nat limit) (filter (matches st pr asg) db)) as E.
  { unfold first_pages. induction k as [|k IH]; [reflexivity|].
    rewrite seq_S, map_app, concat_app, IH. simpl.
    rewrite app_nil_r, Nat.add_comm, firstn_plus.
    f_equal. rewrite issues_of_list_issues.
    - unfold page. rewrite Z2Nat.inj_mul, Nat2Z.id by lia. reflexivity.
    - apply valid_page_bounds. lia.
    - destruct (bindable (Z.of_nat k * limit)) eqn:B; [left; reflexivity|].
      right. unfold bindable in B.
      rewrite andb_false_iff, !Z.leb_gt in B. unfold INT64_MIN in B. lia. }
  split; [exact E|].
  intros Hall. rewrite E. apply firstn_all2. nia.
Qed.

Lemma pages_tile_the_listing_witness :
  1 <= 2 <= 100
  /\ Z.of_nat (List.length five_issues) <= INT64_MAX
  /\ first_pages None None None 2 3 five_issues = five_issues.
Proof.
  assert (1 <= 2 <= 100) as Hl by lia.
  assert (Z.of_nat (List.length five_issues) <= INT64_MAX) as Hsize
      by (vm_compute; discriminate).
  split; [exact Hl|]. split; [exact Hsize|].
  destruct (pages_tile_the_listing None None None 2 3 five_issues Hl Hsize)
    as [_ H].
  apply H. vm_compute. discriminate.
Defined.

(** X14.  List rejects pagination parameters outside the ranges its
    signature declares and clamps nothing: it answers with a validation
    error exactly when [skip] is negative or [limit] is below 1 or above
    100.  A [skip] above the signed 64-bit range passes that validation and
    makes the paging query raise [OverflowError], and only such a [skip]
    does.  Every other call succeeds and returns at most [limit] issues,
    hence never more than 100, never more than [total], and none at all once
    [skip] reaches [total], while [total] is still reported. *)
Theorem list_issues_limits
    (st : option IssueStatus) (pr : option IssuePriority)
    (asg : option string) (skip limit : Z) (db : Table) :
  (list_issues st pr asg skip limit db = HTTP_422_VALIDATION
   <-> skip < 0 \/ limit < 1 \/ 100 < limit)
  /\ (list_issues st pr asg skip limit db = OverflowError
      <-> INT64_MAX < skip /\ 1 <= limit <= 100)
  /\ (List.length (issues_of (list_issues st pr asg skip limit db)) <= 100)%nat
  /\ match list_issues st pr asg skip limit db with
     | Success resp =>
         0 <= skip <= INT64_MAX
         /\ 0 <= IssueListResponse.count resp <= limit
         /\ IssueListResponse.count resp <= IssueListResponse.total resp
         /\ IssueListResponse.total resp
            = Z.of_nat (List.length (filter (matches st pr asg) db))
         /\ (IssueListResponse.total resp <= skip ->
             IssueListResponse.issues resp = [])
     | HTTP_422_VALIDATION | OverflowError => True
     | _ => False
     end.
Proof.
  destruct (valid_page skip limit) eqn:Hv; [destruct (bindable skip) eqn:B|].
  - rewrite (list_issues_unfold _ _ _ _ _ _ Hv B). cbv zeta.
    apply valid_page_bounds in Hv. destruct Hv as [Hs Hl].
    apply bindable_bounds in B. unfold INT64_MIN, INT64_MAX in *.
    cbn [issues_of IssueListResponse.issues IssueListResponse.count
         IssueListResponse.total].
    pose proof (length_page skip limit (filter (matches st pr asg) db) Hs) as L.
    split; [split; [discriminate | lia]|].
    split; [split; [discriminate | lia]|].
    split; [lia|]. split; [lia|]. split; [lia|]. split; [lia|].
    split; [reflexivity|].
    intros Hpast. unfold page. rewrite skipn_all2 by lia.
    apply firstn_nil.
  - rewrite (list_issues_overflow _ _ _ _ _ _ Hv B).
    apply valid_page_bounds in Hv. destruct Hv as [Hs Hl].
    unfold bindable in B. rewrite andb_false_iff, !Z.leb_gt in B.
    unfold INT64_MIN, INT64_MAX in *. cbn [issues_of List.length].
    split; [split; [discriminate | lia]|].
    split; [split; [lia | reflexivity]|].
    split; [lia | exact I].
  - unfold list_issues. rewrite Hv. cbn [issues_of List.length].
    unfold valid_page in Hv. rewrite !andb_false_iff, !Z.leb_gt in Hv.
    unfold INT64_MAX.
    split; [split; [lia | reflexivity]|].
    split; [split; [discriminate | lia]|].
    split; [lia | exact I].
Qed.

(** ** Invariants of the table *)

Lemma In_rewrite_row (row' x : Issue.t) (db : Table) :
  In x (rewrite_row row' db) -> x = row' \/ In x db.
Proof.
  unfold rewrite_row. intros H. apply in_map_iff in H.
  destruct H as (y & <- & Hy).
  destruct (Issue.id y =? Issue.id row'); [left; reflexivity | right; exact Hy].
Qed.

Lemma create_issue_times (now : Z) (p : IssueCreate.t) (db : Table) :
  exists row,
    create_issue now p db = (db ++ [row], Success row)
    /\ Issue.created_at row = now /\ Issue.updated_at row = now.
Proof.
  unfold create_issue. cbv zeta. rewrite setattrs_full.
  destruct (insert_ok now
              (Attrs.mk (Some (IssueCreate.title p)) (IssueCreate.description p)
                        (Some (IssueCreate.status p))
                        (Some (IssueCreate.priority p))
                        (Some (IssueCreate.reporter p))
                        (IssueCreate.assignee p))
              db _ _ eq_refl eq_refl)
    as (row & E & _ & _ & _ & _ & _ & Hc & Hu).
  exists row. auto.
Qed.

Lemma write_items_timely (t now i : Z) (items : list Item) (db : Table) :
  t <= now -> timely t db ->
  timely now (fst (write_items now i items db)).
Proof.
  intros Ht Hdb.
  assert (timely now db) as Hnow.
  { intros r Hr. destruct (Hdb r Hr). lia. }
  unfold write_items. destruct (query_first i db) as [old| |] eqn:Hold;
    [|exact Hnow|exact Hnow].
  pose proof (query_first_In _ _ _ Hold) as Hin.
  destruct (update now old (setattrs (loaded old) items) db)
    as [db1 [new | | | |]] eqn:U; cbn [fst];
    try (assert (is_Success
                   (snd (update now old (setattrs (loaded old) items) db))
                 = false) as F by (rewrite U; reflexivity);
         destruct (update_failure _ _ _ _ F) as [U1 _];
         rewrite U1 in U; injection U as <-; exact Hnow).
  destruct (update_success _ _ _ _ _ _ U)
    as (_ & _ & Hc & [[-> _] | (-> & Hu & _)]); [exact Hnow|].
  intros r Hr. apply In_rewrite_row in Hr. destruct Hr as [-> | Hr].
  - rewrite Hc, Hu. destruct (Hdb old Hin). lia.
  - apply Hnow. exact Hr.
Qed.

Lemma exec_timely (t now : Z) (c : Call) (db : Table) :
  t <= now -> timely t db -> timely now (fst (exec now c db)).
Proof.
  intros Ht Hdb.
  assert (timely now db) as Hnow.
  { intros r Hr. destruct (Hdb r Hr). lia. }
  destruct c as [p | st pr asg skip limit | i | i p | i p | i];
    cbn [exec]; try exact Hnow.
  - destruct (create_issue_times now p db) as (row & E & Hc & Hu).
    rewrite E. cbn [fst]. intros r Hr. apply in_app_iff in Hr.
    destruct Hr as [Hr | [<- | []]]; [apply Hnow; exact Hr | lia].
  - pose proof (write_items_timely t now i (model_dump p) db Ht Hdb) as H.
    rewrite <- update_issue_write in H.
    destruct (update_issue now i p db). exact H.
  - pose proof (write_items_timely t now i (model_dump_exclude_unset p) db
                  Ht Hdb) as H.
    rewrite <- partial_update_issue_write in H.
    destruct (partial_update_issue now i p db). exact H.
  - unfold delete_issue. destruct (query_first i db) as [old| |]; cbn [fst];
      [|exact Hnow|exact Hnow].
    intros r Hr. unfold delete in Hr. apply filter_In in Hr.
    apply Hnow, Hr.
Qed.

Lemma run_timely (calls : list (Z * Call)) (t : Z) (db : Table) :
  clock_from t calls = true -> timely t db ->
  timely (last_time t calls) (fst (run calls db)).
Proof.
  revert t db. induction calls as [|[now c] rest IH]; intros t db Hc Hdb;
    [exact Hdb|].
  simpl in Hc. apply andb_true_iff in Hc. destruct Hc as [Ht Hrest].
  apply Z.leb_le in Ht. rewrite run_cons. cbn [fst last_time].
  apply IH; [exact Hrest|]. apply (exec_timely t); assumption.
Qed.

(** X15.  When the database clock never goes back, after every sequence of
    calls on an empty table every stored issue has
    [created_at <= updated_at], and no timestamp is later than the time of
    the last call. *)
Theorem updated_at_not_before_created_at
    (t : Z) (calls : list (Z * Call))
    (Hclock : clock_from t calls = true) :
  Forall (fun r => Issue.created_at r <= Issue.updated_at r
                   /\ Issue.updated_at r <= last_time t calls)
         (fst (run calls [])).
Proof.
  apply Forall_forall. apply (run_timely calls t []); [exact Hclock|].
  intros r [].
Qed.

Lemma updated_at_not_before_created_at_witness :
  clock_from 0 [ (10, Create sample_create);
                 (20, PartialUpdate 1 patch_status_resolved);
                 (20, Create sample_create) ] = true
  /\ Forall (fun r => Issue.created_at r <= Issue.updated_at r
                      /\ Issue.updated_at r <= 20)
            (fst (run [ (10, Create sample_create);
                        (20, PartialUpdate 1 patch_status_resolved);
                        (20, Create sample_create) ] [])).
Proof.
  split; [reflexivity|].
  apply (updated_at_not_before_created_at 0
           [ (10, Create sample_create);
             (20, PartialUpdate 1 patch_status_resolved);
             (20, Create sample_create) ]).
  reflexivity.
Defined.

Lemma ascending_firstn (n : nat) (l : list Z) :
  StronglySorted Z.lt l -> StronglySorted Z.lt (firstn n l).
Proof.
  revert l. induction n as [|n IH]; intros l H; [constructor|].
  destruct H as [|a l Hs Hall]; simpl; constructor.
  - apply IH. exact Hs.
  - rewrite Forall_forall in *. intros y Hy. apply Hall.
    apply (In_firstn n). exact Hy.
Qed.

Lemma ascending_skipn (n : nat) (l : list Z) :
  StronglySorted Z.lt l -> StronglySorted Z.lt (skipn n l).
Proof.
  revert l. induction n as [|n IH]; intros l H; [exact H|].
  destruct H as [|a l Hs Hall]; simpl; [constructor|].
  apply IH. exact Hs.
Qed.

(** X16.  After every sequence of calls on an empty table, every List
    answer holds its issues in strictly ascending order of id, whatever the
    filters and the page: no issue appears twice in a page. *)
Theorem list_issues_ascending_ids
    (calls : list (Z * Call))
    (st : option IssueStatus) (pr : option IssuePriority)
    (asg : option string) (skip limit : Z) :
  let answer := list_issues st pr asg skip limit (fst (run calls [])) in
  StronglySorted Z.lt (map Issue.id (issues_of answer))
  /\ NoDup (issues_of answer).
Proof.
  cbv zeta.
  assert (StronglySorted Z.lt
            (map Issue.id
               (issues_of (list_issues st pr asg skip limit
                             (fst (run calls [])))))) as H.
  { destruct (valid_page skip limit) eqn:Hv;
      [destruct (bindable skip) eqn:B|].
    - rewrite (list_issues_unfold _ _ _ _ _ _ Hv B). cbv zeta.
      cbn [issues_of IssueListResponse.issues]. unfold page.
      rewrite <- firstn_map, <- skipn_map.
      apply ascending_firstn, ascending_skipn.
      apply (ascending_filter (matches st pr asg)).
      apply run_ascending. constructor.
    - rewrite (list_issues_overflow _ _ _ _ _ _ Hv B). constructor.
    - unfold list_issues. rewrite Hv. constructor. }
  split; [exact H|].
  apply (NoDup_map_inv Issue.id), ascending_NoDup, H.
Qed.

Lemma max_rowid_In (db : Table) (m : Z) :
  max_rowid db = Some m -> exists r, In r db /\ Issue.id r = m.
Proof.
  revert m. induction db as [|x db IH]; intros m H; [discriminate|].
  simpl in H. destruct (max_rowid db) as [m'|].
  - injection H as <-. destruct (Z.max_spec (Issue.id x) m') as [[_ E]|[_ E]];
      rewrite E.
    + destruct (IH m' eq_refl) as (r & Hr & Hid).
      exists r. simpl. auto.
    + exists x. simpl. auto.
  - injection H as <-. exists x. simpl. auto.
Qed.

Lemma next_rowid_within (n : Z) (db : Table) :
  0 <= n -> ids_within n db -> 1 <= next_rowid db <= n + 1.
Proof.
  intros Hn Hdb. unfold next_rowid.
  destruct (max_rowid db) as [m|] eqn:E; [|lia].
  destruct (max_rowid_In db m E) as (r & Hr & <-).
  specialize (Hdb r Hr). lia.
Qed.

Lemma ids_within_same_ids (n : Z) (db db' : Table) :
  map Issue.id db' = map Issue.id db -> ids_within n db -> ids_within n db'.
Proof.
  intros E H r Hr. apply (in_map Issue.id) in Hr. rewrite E in Hr.
  apply in_map_iff in Hr. destruct Hr as (r0 & <- & Hr0). apply H, Hr0.
Qed.

Lemma exec_ids_within (n now : Z) (c : Call) (db : Table) :
  0 <= n -> ids_within n db ->
  ids_within (n + (if is_Create c then 1 else 0)) (fst (exec now c db)).
Proof.
  intros Hn Hdb.
  destruct c as [p | st pr asg skip limit | i | i p | i p | i];
    cbn [exec is_Create]; rewrite ?Z.add_0_r; try exact Hdb.
  - destruct (create_issue_ok now p db) as (row & E & Hid & _).
    rewrite E. cbn [fst]. intros r Hr. apply in_app_iff in Hr.
    destruct Hr as [Hr | [<- | []]].
    + specialize (Hdb r Hr). lia.
    + rewrite Hid. pose proof (next_rowid_within n db Hn Hdb). lia.
  - pose proof (update_issue_ids now i p db) as E.
    destruct (update_issue now i p db). cbn [fst] in *.
    apply (ids_within_same_ids n db); assumption.
  - pose proof (partial_update_issue_ids now i p db) as E.
    destruct (partial_update_issue now i p db). cbn [fst] in *.
    apply (ids_within_same_ids n db); assumption.
  - unfold delete_issue. destruct (query_first i db) as [old| |]; cbn [fst];
      [|exact Hdb|exact Hdb].
    intros r Hr. unfold delete in Hr. apply filter_In in Hr. apply Hdb, Hr.
Qed.

Lemma count_creates_cons (now : Z) (c : Call) (rest : list (Z * Call)) :
  count_creates ((now, c) :: rest)
  = (if is_Create c then 1 else 0) + count_creates rest.
Proof.
  unfold count_creates. cbn [filter snd].
  destruct (is_Create c); cbn [List.length]; lia.
Qed.

Lemma run_ids_within (calls : list (Z * Call)) (n : Z) (db : Table) :
  0 <= n -> ids_within n db ->
  ids_within (n + count_creates calls) (fst (run calls db)).
Proof.
  revert n db. induction calls as [|[now c] rest IH]; intros n db Hn Hdb.
  - unfold count_creates. simpl. rewrite Z.add_0_r. exact Hdb.
  - rewrite run_cons, count_creates_cons, Z.add_assoc. cbn [fst].
    apply IH; [destruct (is_Create c); lia|].
    apply exec_ids_within; assumption.
Qed.

(** X17.  After every sequence of calls on an empty table, every stored id
    is at least 1 and at most the number of Create calls of the sequence:
    ids start at 1 and only a Create brings in a new one. *)
Theorem stored_ids_bounded_by_creates (calls : list (Z * Call)) :
  Forall (fun r => 1 <= Issue.id r <= count_creates calls)
         (fst (run calls [])).
Proof.
  apply Forall_forall.
  pose proof (run_ids_within calls 0 []) as H. rewrite Z.add_0_l in H.
  apply H; [lia|]. intros r [].
Qed.



(** The ids [first], [first + 1], ..., [n] of them. *)
Lemma created_ids_from (calls : list (Z * Call)) (db : Table) :
  no_Delete calls = true ->
  let n := List.length (filter (fun c => is_Create (snd c)) calls) in
  let fresh := map (fun k => next_rowid db + Z.of_nat k) (seq 0 n) in
  created_ids calls (snd (run calls db)) = fresh
  /\ map Issue.id (fst (run calls db)) = map Issue.id db ++ fresh.
Proof.
  revert db. induction calls as [|[now c] rest IH]; intros db Hnd.
  - simpl. rewrite app_nil_r. split; reflexivity.
  - simpl in Hnd. apply andb_true_iff in Hnd. destruct Hnd as [Hc Hrest].
    rewrite run_cons. cbn [fst snd filter].
    destruct c as [p | st pr asg skip limit | i | i p | i p | i];
      try discriminate Hc; cbn [exec is_Create].
    + destruct (create_issue_fresh now p db) as (row & E & Hid & _).
      rewrite E. cbn [fst snd created_ids List.length].
      destruct (IH (db ++ [row]) Hrest) as [H1 H2]. cbv zeta in H1, H2.
      rewrite H1, H2, (next_rowid_snoc db row Hid), map_app.
      cbn [seq map]. rewrite <- seq_shift, map_map, Z.add_0_r, Hid.
      assert (map (fun k => next_rowid db + 1 + Z.of_nat k)
                  (seq 0 (List.length
                            (filter (fun c => is_Create (snd c)) rest)))
              = map (fun k => next_rowid db + Z.of_nat (S k))
                    (seq 0 (List.length
                              (filter (fun c => is_Create (snd c)) rest))))
        as -> by (apply map_ext; intros k; lia).
      split; [reflexivity|]. rewrite <- app_assoc. reflexivity.
    + apply IH, Hrest.
    + apply IH, Hrest.
    + pose proof (update_issue_ids now i p db) as E.
      destruct (update_issue now i p db) as [db' r]. cbn [fst snd] in *.
      destruct (IH db' Hrest) as [H1 H2]. cbv zeta in H1, H2.
      unfold next_rowid in *. rewrite (max_rowid_ids _ _ E) in H1, H2.
      rewrite E in H2. cbn [created_ids]. split; assumption.
    + pose proof (partial_update_issue_ids now i p db) as E.
      destruct (partial_update_issue now i p db) as [db' r]. cbn [fst snd] in *.
      destruct (IH db' Hrest) as [H1 H2]. cbv zeta in H1, H2.
      unfold next_rowid in *. rewrite (max_rowid_ids _ _ E) in H1, H2.
      rewrite E in H2. cbn [created_ids]. split; assumption.
Qed.

(** X19.  In a sequence of calls without Delete on an empty table, the
    Creates return the ids 1, 2, 3, ... in this order, one per Create, and
    the table then holds exactly the issues of these ids. *)
Theorem ids_count_up_without_delete (calls : list (Z * Call))
    (Hnd : no_Delete calls = true) :
  let n := List.length (filter (fun c => is_Create (snd c)) calls) in
  created_ids calls (snd (run calls [])) = map Z.of_nat (seq 1 n)
  /\ map Issue.id (fst (run calls [])) = map Z.of_nat (seq 1 n).
Proof.
  destruct (created_ids_from calls [] Hnd) as [H1 H2]. cbv zeta in *.
  rewrite H1, H2. cbn [map app next_rowid max_rowid].
  assert (forall n, map (fun k => 1 + Z.of_nat k) (seq 0 n)
                    = map Z.of_nat (seq 1 n)) as E.
  { intros n. rewrite <- seq_shift, map_map. apply map_ext. intros k. lia. }
  rewrite E. split; reflexivity.
Qed.

Lemma ids_count_up_without_delete_witness :
  no_Delete [ (10, Create sample_create); (11, Get 1);
              (12, Create sample_create); (13, Update 1 sample_create);
              (14, Create sample_create) ] = true
  /\ created_ids [ (10, Create sample_create); (11, Get 1);
                   (12, Create sample_create); (13, Update 1 sample_create);
                   (14, Create sample_create) ]
       (snd (run [ (10, Create sample_create); (11, Get 1);
                   (12, Create sample_create); (13, Update 1 sample_create);
                   (14, Create sample_create) ] []))
     = [1; 2; 3].
Proof.
  split; [reflexivity|].
  destruct (ids_count_up_without_delete
              [ (10, Create sample_create); (11, Get 1);
                (12, Create sample_create); (13, Update 1 sample_create);
                (14, Create sample_create) ] eq_refl) as [H _].
  exact H.
Defined.

(** ** The ids that Create returns *)










(** ** Ids that are not stored, ids that are *)

(** X20.  For an id that no stored issue has, Get, FullUpdate,
    PartialUpdate and Delete all answer alike and leave the table as it was:
    with NotFound for that id when the id lies in the signed 64-bit range,
    with [OverflowError] when it does not. *)
Theorem absent_id_outcomes
    (now issue_id : Z) (full : IssueCreate.t) (patch : IssueUpdate.t)
    (db : Table)
    (Habsent : forall r, In r db -> Issue.id r <> issue_id) :
  get_issue issue_id db = absent_answer issue_id
  /\ update_issue now issue_id full db = (db, absent_answer issue_id)
  /\ partial_update_issue now issue_id patch db = (db, absent_answer issue_id)
  /\ delete_issue issue_id db = (db, absent_answer issue_id)
  /\ (INT64_MIN <= issue_id <= INT64_MAX ->
      get_issue issue_id db = HTTP_404_NOT_FOUND issue_id).
Proof.
  unfold get_issue, update_issue, partial_update_issue, delete_issue,
    absent_answer.
  destruct (bindable issue_id) eqn:B.
  - assert (query_first issue_id db = NoRow) as ->
        by (apply query_first_NoRow; split; assumption).
    repeat split.
  - assert (query_first issue_id db = Unbindable) as ->
        by (apply query_first_Unbindable; exact B).
    repeat split. intros Hr. apply bindable_bounds in Hr. congruence.
Qed.

Lemma absent_id_outcomes_witness :
  (forall r, In r mixed_issues -> Issue.id r <> 7)
  /\ get_issue 7 mixed_issues = HTTP_404_NOT_FOUND 7
  /\ delete_issue 7 mixed_issues = (mixed_issues, HTTP_404_NOT_FOUND 7).
Proof.
  assert (forall r, In r mixed_issues -> Issue.id r <> 7) as H.
  { intros r [<- | [<- | [<- | []]]]; discriminate. }
  split; [exact H|].
  destruct (absent_id_outcomes 0 7 sample_create patch_nothing mixed_issues H)
    as (G & _ & _ & D & _).
  split; [exact G | exact D].
Defined.

Lemma select_first_unique (db : Table) (old : Issue.t) :
  NoDup (map Issue.id db) -> In old db ->
  select_first (Issue.id old) db = Some old.
Proof.
  unfold select_first. induction db as [|x db IH]; intros Hnd Hin;
    [destruct Hin|].
  simpl in Hnd. apply NoDup_cons_iff in Hnd. destruct Hnd as [Hx Hnd].
  simpl. destruct (Issue.id x =? Issue.id old) eqn:E.
  - apply Z.eqb_eq in E. destruct Hin as [-> | Hin]; [reflexivity|].
    exfalso. apply Hx. rewrite E. apply in_map. exact Hin.
  - apply Z.eqb_neq in E. destruct Hin as [-> | Hin]; [congruence|].
    apply IH; assumption.
Qed.

(** X21.  On a table whose ids are pairwise distinct, as the primary key
    makes them, a FullUpdate of the id of a stored issue succeeds: the issue
    it answers with is stored afterwards, is what a Get of the id then
    returns, and has the payload's title, description, status, priority,
    reporter and assignee, whether or not they differ from the stored ones,
    with the id and created_at of the issue it replaces; every issue of
    another id stays stored. *)
Theorem update_issue_replaces_stored
    (now : Z) (p : IssueCreate.t) (db : Table) (old : Issue.t)
    (Hkey : NoDup (map Issue.id db))
    (Hin : In old db)
    (Hb : bindable (Issue.id old) = true) :
  let out := update_issue now (Issue.id old) p db in
  exists new,
    snd out = Success new
    /\ In new (fst out)
    /\ get_issue (Issue.id old) (fst out) = Success new
    /\ Issue.title new = IssueCreate.title p
    /\ Issue.description new = IssueCreate.description p
    /\ Issue.status new = IssueCreate.status p
    /\ Issue.priority new = IssueCreate.priority p
    /\ Issue.reporter new = IssueCreate.reporter p
    /\ Issue.assignee new = IssueCreate.assignee p
    /\ Issue.id new = Issue.id old
    /\ Issue.created_at new = Issue.created_at old
    /\ (forall r, In r db -> Issue.id r <> Issue.id old -> In r (fst out)).
Proof.
  assert (query_first (Issue.id old) db = Row old) as Hold.
  { apply query_first_Row. split; [exact Hb|].
    apply select_first_unique; assumption. }
  cbv zeta. unfold update_issue. rewrite Hold, setattrs_full.
  match goal with |- context [update now old ?a db] => set (o := a) end.
  destruct (update now old o db) as [db1 [new | | | |]] eqn:U; cbn [fst snd].
  2-5: exfalso;
       pose proof (update_cases now old o db) as C; rewrite U in C;
       destruct C
         as [[_ C] | [[_ (t & s & q & r & _ & _ & _ & _ & C)] | [_ [N C]]]];
       try discriminate C;
       unfold o in N; cbn in N;
       destruct N as [N | [N | [N | N]]]; discriminate N.
  pose proof (update_stored now old o db db1 new Hold U) as Hq.
  destruct (update_success _ _ _ _ _ _ U) as (Hl & Hi & Hc & Hw).
  exists new. split; [reflexivity|].
  split; [exact (query_first_In _ _ _ Hq)|].
  split; [unfold get_issue; rewrite Hq; reflexivity|].
  unfold o, loaded in Hl. injection Hl as H1 H2 H3 H4 H5 H6.
  repeat (split; [congruence|]).
  intros r Hr Hne. destruct Hw as [[-> _] | (-> & _ & _)]; [exact Hr|].
  unfold rewrite_row. apply in_map_iff. exists r. split; [|exact Hr].
  assert ((Issue.id r =? Issue.id new) = false) as ->
      by (apply Z.eqb_neq; congruence).
  reflexivity.
Qed.

Lemma update_issue_replaces_stored_witness :
  NoDup (map Issue.id mixed_issues)
  /\ In (Issue.mk 2 "b" None OPEN LOW "ann" None 11 11) mixed_issues
  /\ bindable 2 = true
  /\ exists new,
       snd (update_issue 20 2 sample_create mixed_issues) = Success new
       /\ Issue.title new = IssueCreate.title sample_create
       /\ Issue.id new = 2.
Proof.
  assert (NoDup (map Issue.id mixed_issues)) as Hkey.
  { apply ascending_NoDup. simpl.
    repeat (constructor; [|repeat constructor; lia]). constructor. }
  assert (In (Issue.mk 2 "b" None OPEN LOW "ann" None 11 11) mixed_issues)
    as Hin by (simpl; auto).
  split; [exact Hkey|]. split; [exact Hin|]. split; [reflexivity|].
  destruct (update_issue_replaces_stored 20 sample_create mixed_issues _
              Hkey Hin eq_refl)
    as (new & S & _ & _ & T & _ & _ & _ & _ & _ & I & _).
  exists new. split; [exact S|]. split; [exact T | exact I].
Defined.
